(** * Budget ledger: the store, the CSV row codec and the form handlers

    A shallow embedding of [budget_web_app.py].

    - Python [str] values are [string]s; a character stands for its code
      point, restricted to the first 256 code points.
    - Python [float] and SQLite [REAL] values are IEEE 754 binary64 numbers,
      [spec_float] with [prec = 53] and [emax = 1024].
    - The SQLite database is a record of two tables kept in rowid order.
    - [with get_conn() as conn:] is a transaction: committed when the body
      returns, rolled back when it raises. *)

From Stdlib Require Import ZArith QArith Qpower String Ascii List Bool Lia.
From Stdlib Require Import Floats.SpecFloat.
From Stdlib Require Import Numbers.DecimalString Numbers.DecimalN.
From Stdlib Require Import Sorting.Sorted.
From stdpp Require Import base option list gmap strings.

Local Open Scope string_scope.
Local Open Scope Z_scope.

(** ** Text *)

Module Text.

(** [str.isspace] on the first 256 code points: TAB..CR, FS..US, SPACE,
    NEL (0x85) and NBSP (0xA0). *)
Definition py_isspace (c : ascii) : bool :=
  let n := Z.of_N (N_of_ascii c) in
  ((9 <=? n) && (n <=? 13)) || ((28 <=? n) && (n <=? 32))
  || (n =? 133) || (n =? 160).

Fixpoint lstrip (s : string) : string :=
  match s with
  | EmptyString => EmptyString
  | String c s' => if py_isspace c then lstrip s' else s
  end.

Fixpoint rstrip (s : string) : string :=
  match s with
  | EmptyString => EmptyString
  | String c s' =>
      match rstrip s' with
      | EmptyString => if py_isspace c then EmptyString else String c EmptyString
      | r => String c r
      end
  end.

(** [str.strip()] with no argument. *)
Definition strip (s : string) : string := rstrip (lstrip s).

(** Truthiness of a [str]: only the empty string is falsy. *)
Definition truthy (s : string) : bool :=
  match s with EmptyString => false | String _ _ => true end.

(** [x or d] where [x] is a [str] or [None]. *)
Definition or_default (x : option string) (d : string) : string :=
  match x with
  | Some v => if truthy v then v else d
  | None => d
  end.

Definition is_digit (c : ascii) : bool :=
  let n := Z.of_N (N_of_ascii c) in (48 <=? n) && (n <=? 57).

Definition digit_val (c : ascii) : Z := Z.of_N (N_of_ascii c - 48).

(** ASCII lower-casing, as used when matching [inf] and [nan]. *)
Definition lower (c : ascii) : ascii :=
  let n := N_of_ascii c in
  if ((65 <=? n) && (n <=? 90))%N then ascii_of_N (n + 32) else c.

Fixpoint lower_str (s : string) : string :=
  match s with
  | EmptyString => EmptyString
  | String c s' => String (lower c) (lower_str s')
  end.

(** Value of a digit sequence read left to right. *)
Definition digits_value (ds : list ascii) : Z :=
  fold_left (fun acc d => 10 * acc + digit_val d) ds 0.

(** The rest of a [digitpart] after its first digit:
    [(["_"] digit)*], longest match. *)
Fixpoint digitpart_tail (s : string) : list ascii * string :=
  match s with
  | EmptyString => ([], EmptyString)
  | String c s' =>
      if is_digit c then
        let '(ds, r) := digitpart_tail s' in (c :: ds, r)
      else if Ascii.eqb c "_" then
        match s' with
        | String d s'' =>
            if is_digit d then
              let '(ds, r) := digitpart_tail s'' in (d :: ds, r)
            else ([], s)
        | EmptyString => ([], s)
        end
      else ([], s)
  end.

(** [digitpart ::= digit (["_"] digit)*] *)
Definition digitpart (s : string) : option (list ascii * string) :=
  match s with
  | String c s' =>
      if is_digit c then
        let '(ds, r) := digitpart_tail s' in Some (c :: ds, r)
      else None
  | EmptyString => None
  end.

(** [[sign]]: the flag is [true] for a minus sign. *)
Definition opt_sign (s : string) : bool * string :=
  match s with
  | String c s' =>
      if Ascii.eqb c "-" then (true, s')
      else if Ascii.eqb c "+" then (false, s')
      else (false, s)
  | EmptyString => (false, s)
  end.

End Text.
Export Text.

(** ** Python floats *)

Module PyFloat.

Definition prec : Z := 53.
Definition emax : Z := 1024.

Abbreviation float := spec_float.

Definition fzero : float := S754_zero false.

Definition fadd : float -> float -> float := SFadd prec emax.
Definition fsub : float -> float -> float := SFsub prec emax.
Definition fltb : float -> float -> bool := SFltb.

Definition is_nan (x : float) : bool :=
  match x with S754_nan => true | _ => false end.

(** What the grammar of [float(str)] recognises, before conversion. *)
Inductive literal :=
  | LNan
  | LInf (neg : bool)
  | LDec (neg : bool) (int_digits frac_digits : list ascii) (exp : Z).

(** [number ::= [digitpart] "." digitpart | digitpart ["."]] *)
Definition parse_number (s : string)
  : option (list ascii * list ascii * string) :=
  match s with
  | String c s' =>
      if Ascii.eqb c "." then
        match digitpart s' with
        | Some (fs, r) => Some ([], fs, r)
        | None => None
        end
      else
        match digitpart s with
        | Some (ds, String c1 r1) =>
            if Ascii.eqb c1 "." then
              match digitpart r1 with
              | Some (fs, r2) => Some (ds, fs, r2)
              | None => Some (ds, [], r1)
              end
            else Some (ds, [], String c1 r1)
        | Some (ds, EmptyString) => Some (ds, [], EmptyString)
        | None => None
        end
  | EmptyString => None
  end.

(** [exponent ::= ("e" | "E") [sign] digitpart], optional. *)
Definition parse_exponent (s : string) : option (Z * string) :=
  match s with
  | String c s' =>
      if Ascii.eqb c "e" || Ascii.eqb c "E" then
        let '(neg, s1) := opt_sign s' in
        match digitpart s1 with
        | Some (ds, r) =>
            Some (if neg then - digits_value ds else digits_value ds, r)
        | None => None
        end
      else Some (0, s)
  | EmptyString => Some (0, EmptyString)
  end.

(** [floatvalue ::= [sign] (floatnumber | infinity | nan)], the whole
    text. *)
Definition parse_literal (s : string) : option literal :=
  let '(neg, r) := opt_sign s in
  let l := lower_str r in
  if String.eqb l "inf" || String.eqb l "infinity" then Some (LInf neg)
  else if String.eqb l "nan" then Some LNan
  else
    match parse_number r with
    | Some (ds, fs, r1) =>
        match parse_exponent r1 with
        | Some (e, EmptyString) => Some (LDec neg ds fs e)
        | _ => None
        end
    | None => None
    end.

(** The binary64 number nearest to [m * 10^e10] (ties to even), [0 <= m]. *)
Definition float_of_decimal (neg : bool) (m e10 : Z) : float :=
  match m with
  | Z0 => S754_zero neg
  | Zpos p =>
      if 0 <=? e10 then
        binary_round prec emax neg (Z.to_pos (Zpos p * 10 ^ e10)) 0
      else
        let '(q, e', l) :=
          SFdiv_core_binary prec emax (Zpos p) 0 (10 ^ (- e10)) 0 in
        binary_round_aux prec emax neg q e' l
  | Zneg _ => S754_nan
  end.

Definition float_of_literal (l : literal) : float :=
  match l with
  | LNan => S754_nan
  | LInf neg => S754_infinity neg
  | LDec neg ds fs e =>
      float_of_decimal neg (digits_value (ds ++ fs)) (e - Z.of_nat (length fs))
  end.

(** [float(s)]: [None] stands for the [ValueError] it raises. *)
Definition float_of_string (s : string) : option float :=
  float_of_literal <$> parse_literal (strip s).

(** Nearest integer to [n / d], ties to even ([0 <= n], [0 < d]). *)
Definition round_half_even_div (n d : Z) : Z :=
  let q := n / d in
  match 2 * (n mod d) ?= d with
  | Lt => q
  | Gt => q + 1
  | Eq => if Z.even q then q else q + 1
  end.

(** [m * 2^e] in hundredths, correctly rounded. *)
Definition hundredths (m : positive) (e : Z) : Z :=
  if 0 <=? e then Zpos m * 2 ^ e * 100
  else round_half_even_div (Zpos m * 100) (2 ^ (- e)).

Definition digit_char (d : Z) : ascii := ascii_of_N (Z.to_N (48 + d)).

Definition dec_string (n : Z) : string :=
  NilZero.string_of_uint (N.to_uint (Z.to_N n)).

Definition fixed2 (n : Z) : string :=
  dec_string (n / 100)
  +:+ String "." (String (digit_char (n / 10 mod 10))
                   (String (digit_char (n mod 10)) EmptyString)).

Definition sign_text (s : bool) : string := if s then "-" else "".

(** [f"{x:.2f}"] *)
Definition format_2f (x : float) : string :=
  match x with
  | S754_nan => "nan"
  | S754_infinity s => sign_text s +:+ "inf"
  | S754_zero s => sign_text s +:+ "0.00"
  | S754_finite s m e => sign_text s +:+ fixed2 (hundredths m e)
  end.

End PyFloat.
Export PyFloat.

(** ** Python integers and dates *)

(** [int(s)] in base 10: [None] stands for the [ValueError] it raises.
    The limit that recent Python versions put on the number of digits is
    left out. *)
Definition int_of_string (s : string) : option Z :=
  let '(neg, r) := opt_sign (strip s) in
  match digitpart r with
  | Some (ds, EmptyString) =>
      Some (if neg then - digits_value ds else digits_value ds)
  | _ => None
  end.

(** A [datetime.date]; [year] ranges over 1..9999. *)
Record date := { year : Z; month : Z; day : Z }.

(** [date.isoformat()], [YYYY-MM-DD]. *)
Definition isoformat (d : date) : string :=
  String (digit_char (year d / 1000 mod 10))
 (String (digit_char (year d / 100 mod 10))
 (String (digit_char (year d / 10 mod 10))
 (String (digit_char (year d mod 10))
 (String "-"
 (String (digit_char (month d / 10 mod 10))
 (String (digit_char (month d mod 10))
 (String "-"
 (String (digit_char (day d / 10 mod 10))
 (String (digit_char (day d mod 10)) EmptyString))))))))).

(** ** Exceptions *)

(** The [ValueError]s of the program, one constructor per message. *)
Inductive value_error :=
  | InvalidNumber (value : string)   (* parse_float: float() failed *)
  | NegativeValue                    (* parse_float: number < 0 *)
  | InvalidInt (value : string)      (* int() failed *)
  | ProjectNameRequired
  | ProjectExists
  | ExpenseDescriptionRequired
  | ProjectNotFound.

(** The constraint an [sqlite3.IntegrityError] reports. *)
Inductive constraint :=
  | NotNull (column : string)
  | Unique (column : string).

Inductive exn :=
  | ValueError (e : value_error)
  | IntegrityError (c : constraint).

(** The specification's [InvalidAmountError]: what [parse_float] raises. *)
Definition InvalidAmountError (e : exn) : Prop :=
  e = ValueError NegativeValue \/ exists v, e = ValueError (InvalidNumber v).

Definition parse_float (value : string) : exn + float :=
  match float_of_string value with
  | None => inl (ValueError (InvalidNumber value))
  | Some number =>
      if fltb number fzero then inl (ValueError NegativeValue)
      else inr number
  end.

(** ** The SQLite store *)

Module Store.

Record project := {
  p_id : Z;
  p_name : string;
  p_planned_budget : float;
  p_created_at : string }.

Record expense := {
  e_id : Z;
  e_project_id : Z;
  e_amount : float;
  e_description : string;
  e_expense_date : string }.

(** Both tables, each in rowid order. *)
Record db := { projects : list project; expenses : list expense }.

(** The store right after [init_db] on a new file. *)
Definition empty_db : db := {| projects := []; expenses := [] |}.

(** [INTEGER PRIMARY KEY AUTOINCREMENT]: one more than the largest rowid
    ever used; no row is ever deleted, so that is the largest in the
    table. *)
Definition next_rowid (ids : list Z) : Z := 1 + foldr Z.max 0 ids.

(** A double bound to a statement or produced by an expression: SQLite
    turns NaN into NULL. *)
Definition sql_real (x : float) : option float :=
  if is_nan x then None else Some x.

(** [SELECT id FROM projects WHERE name = ?] then [fetchone()]. *)
Definition select_id_by_name (d : db) (name : string) : option Z :=
  p_id <$> List.find (fun p => String.eqb (p_name p) name) (projects d).

(** [SELECT id FROM projects WHERE id = ?] then [fetchone()]. *)
Definition select_id (d : db) (id : Z) : option Z :=
  p_id <$> List.find (fun p => p_id p =? id) (projects d).

(** [INSERT INTO projects(name, planned_budget, created_at)]:
    [planned_budget REAL NOT NULL], [name TEXT NOT NULL UNIQUE]. *)
Definition insert_project (d : db) (name : string) (budget : float)
    (created_at : string) : exn + db :=
  match sql_real budget with
  | None => inl (IntegrityError (NotNull "projects.planned_budget"))
  | Some b =>
      match select_id_by_name d name with
      | Some _ => inl (IntegrityError (Unique "projects.name"))
      | None =>
          inr {| projects := projects d ++
                   [{| p_id := next_rowid (p_id <$> projects d);
                       p_name := name;
                       p_planned_budget := b;
                       p_created_at := created_at |}];
                 expenses := expenses d |}
      end
  end.

(** [INSERT INTO expenses(project_id, amount, description, expense_date)]:
    [amount REAL NOT NULL]; the foreign key is declared but SQLite does
    not enforce it unless [PRAGMA foreign_keys] is switched on. *)
Definition insert_expense (d : db) (project_id : Z) (amount : float)
    (description expense_date : string) : exn + db :=
  match sql_real amount with
  | None => inl (IntegrityError (NotNull "expenses.amount"))
  | Some a =>
      inr {| projects := projects d;
             expenses := expenses d ++
               [{| e_id := next_rowid (e_id <$> expenses d);
                   e_project_id := project_id;
                   e_amount := a;
                   e_description := description;
                   e_expense_date := expense_date |}] |}
  end.

(** [with get_conn() as conn: body]: the connection commits when the body
    returns and rolls back when it raises. *)
Definition with_conn {A} (body : db -> exn + db * A) (d : db)
  : db * (exn + A) :=
  match body d with
  | inl e => (d, inl e)
  | inr (d', a) => (d', inr a)
  end.

(** [SUM(x)] over the rows of a group: NULL for no row, else the doubles
    added one after the other from 0.0, in rowid order. (SQLite from 3.43
    on carries a compensation term along; the result is a double in either
    case.) *)
Definition sql_sum (xs : list float) : option float :=
  match xs with
  | [] => None
  | _ => sql_real (fold_left fadd xs fzero)
  end.

(** A row of [query_project] and [query_projects]. The integer 0 that
    [COALESCE] yields for a project without expenses is the float 0.0. *)
Record project_row := {
  r_id : Z;
  r_name : string;
  r_planned_budget : float;
  r_created_at : string;
  r_spent : float;
  r_remaining : option float }.

(** The amounts that [LEFT JOIN expenses e ON e.project_id = p.id] brings
    into the group of project [p]. *)
Definition joined_amounts (d : db) (p : project) : list float :=
  e_amount <$> filter (fun e => e_project_id e = p_id p) (expenses d).

Definition aggregate_row (d : db) (p : project) : project_row :=
  let spent := default fzero (sql_sum (joined_amounts d p)) in
  {| r_id := p_id p;
     r_name := p_name p;
     r_planned_budget := p_planned_budget p;
     r_created_at := p_created_at p;
     r_spent := spent;
     r_remaining := sql_real (fsub (p_planned_budget p) spent) |}.

(** [ORDER BY created_at DESC, id DESC]: does [a] come before [b]? *)
Definition row_before (a b : project_row) : bool :=
  match String.compare (r_created_at a) (r_created_at b) with
  | Gt => true
  | Lt => false
  | Eq => r_id b <? r_id a
  end.

Fixpoint insert_sorted (a : project_row) (l : list project_row)
  : list project_row :=
  match l with
  | [] => [a]
  | b :: l' => if row_before a b then a :: l else b :: insert_sorted a l'
  end.

Definition order_rows (l : list project_row) : list project_row :=
  foldr insert_sorted [] l.

Definition query_projects (d : db) : list project_row :=
  order_rows (aggregate_row d <$> projects d).

Definition query_project (d : db) (project_id : Z) : option project_row :=
  aggregate_row d <$> List.find (fun p => p_id p =? project_id) (projects d).

End Store.
Export Store.

(** ** The row codec *)

Module Codec.

(** A CSV row as [csv.DictReader] yields it: a missing key and a [None]
    value read the same through [row.get(k) or default]. *)
Abbreviation row := (gmap string string).

(** The loop state of [import_rows]: the connection's view of the store,
    [projects_added] and [expenses_added]. *)
Definition import_state : Type := db * nat * nat.

(** The local variables that [import_rows] reads from a row. *)
Definition row_name (r : row) : string :=
  strip (or_default (r !! "Project") "").
Definition row_budget_text (r : row) : string :=
  strip (or_default (r !! "Budget") "").
Definition row_created_at (today : date) (r : row) : string :=
  strip (or_default (r !! "CreatedAt") (isoformat today)).
Definition row_expense_amount (r : row) : string :=
  strip (or_default (r !! "ExpenseAmount") "").
Definition row_expense_description (r : row) : string :=
  strip (or_default (r !! "ExpenseDescription") "").
Definition row_expense_date (today : date) (r : row) : string :=
  strip (or_default (r !! "ExpenseDate") (isoformat today)).

(** The [if budget_text:] block. *)
Definition import_budget (today : date) (conn : db) (projects_added : nat)
    (r : row) : exn + db * nat :=
  if truthy (row_budget_text r) then
    match parse_float (row_budget_text r) with
    | inl e => inl e
    | inr budget =>
        match select_id_by_name conn (row_name r) with
        | Some _ => inr (conn, projects_added)
        | None =>
            match insert_project conn (row_name r) budget
                    (row_created_at today r) with
            | inl e => inl e
            | inr conn' => inr (conn', S projects_added)
            end
        end
    end
  else inr (conn, projects_added).

(** The [if expense_amount:] block; its [continue] leaves the counters as
    they are. *)
Definition import_expense (today : date) (conn : db) (expenses_added : nat)
    (r : row) : exn + db * nat :=
  if truthy (row_expense_amount r) then
    match parse_float (row_expense_amount r) with
    | inl e => inl e
    | inr amount =>
        match select_id_by_name conn (row_name r) with
        | None => inr (conn, expenses_added)
        | Some project_id =>
            match insert_expense conn project_id amount
                    (or_default (Some (row_expense_description r))
                       "Imported expense")
                    (row_expense_date today r) with
            | inl e => inl e
            | inr conn' => inr (conn', S expenses_added)
            end
        end
    end
  else inr (conn, expenses_added).

(** One iteration of the [for row in rows] loop. *)
Definition import_row (today : date) (st : import_state) (r : row)
  : exn + import_state :=
  let '(conn, projects_added, expenses_added) := st in
  if negb (truthy (row_name r)) then inr st
  else
    match import_budget today conn projects_added r with
    | inl e => inl e
    | inr (conn1, projects_added1) =>
        match import_expense today conn1 expenses_added r with
        | inl e => inl e
        | inr (conn2, expenses_added2) =>
            inr (conn2, projects_added1, expenses_added2)
        end
    end.

Global Arguments import_row : simpl never.

(** The [for] loop: an exception leaves the loop at once. *)
Fixpoint import_loop (today : date) (rows : list row) (st : import_state)
  : exn + import_state :=
  match rows with
  | [] => inr st
  | r :: rows' =>
      match import_row today st r with
      | inl e => inl e
      | inr st' => import_loop today rows' st'
      end
  end.

(** [import_rows(rows)]: the store afterwards and either the exception
    raised or [(projects_added, expenses_added)]. [today] is what
    [date.today()] returns while the call runs. *)
Definition import_rows (today : date) (rows : list row) (d : db)
  : db * (exn + nat * nat) :=
  with_conn
    (fun conn =>
       match import_loop today rows (conn, 0%nat, 0%nat) with
       | inl e => inl e
       | inr (conn', pa, ea) => inr (conn', (pa, ea))
       end) d.

Definition project_out (p : project) : row :=
  list_to_map
    [("Project", p_name p);
     ("Budget", format_2f (p_planned_budget p));
     ("CreatedAt", p_created_at p);
     ("ExpenseAmount", "");
     ("ExpenseDescription", "");
     ("ExpenseDate", "")].

Definition expense_out (p : project) (e : expense) : row :=
  list_to_map
    [("Project", p_name p);
     ("Budget", "");
     ("CreatedAt", "");
     ("ExpenseAmount", format_2f (e_amount e));
     ("ExpenseDescription", e_description e);
     ("ExpenseDate", e_expense_date e)].

(** [SELECT amount, description, expense_date FROM expenses WHERE
    project_id = (SELECT id FROM projects WHERE name = ?) ORDER BY id] *)
Definition expenses_by_name (d : db) (name : string) : list expense :=
  match select_id_by_name d name with
  | Some id => filter (fun e => e_project_id e = id) (expenses d)
  | None => []
  end.

(** [export_rows()]; [ORDER BY id] is the order of the tables. *)
Definition export_rows (d : db) : list row :=
  p ← projects d;
  project_out p :: (expense_out p <$> expenses_by_name d (p_name p)).

End Codec.
Export Codec.

(** ** The form handlers *)

Module Handlers.

(** The decoded form body: keys with a non-empty value. *)
Abbreviation form := (gmap string string).

(** The local variables that the handlers read from the form. *)
Definition form_name (f : form) : string :=
  strip (or_default (f !! "name") "").
Definition form_planned_budget (f : form) : string :=
  strip (or_default (f !! "planned_budget") "").
Definition form_created_at (today : date) (f : form) : string :=
  strip (or_default (f !! "created_at") (isoformat today)).
Definition form_project_id (f : form) : string :=
  default "0" (f !! "project_id").
Definition form_amount (f : form) : string :=
  strip (or_default (f !! "amount") "").
Definition form_description (f : form) : string :=
  strip (or_default (f !! "description") "").
Definition form_expense_date (today : date) (f : form) : string :=
  strip (or_default (f !! "expense_date") (isoformat today)).

(** [BudgetHandler.handle_add_project]; the redirect that ends it is not
    modelled. *)
Definition handle_add_project (today : date) (f : form) (d : db)
  : db * (exn + unit) :=
  if negb (truthy (form_name f)) then
    (d, inl (ValueError ProjectNameRequired))
  else
    match parse_float (form_planned_budget f) with
    | inl e => (d, inl e)
    | inr budget =>
        with_conn
          (fun conn =>
             match insert_project conn (form_name f) budget
                     (form_created_at today f) with
             | inl (IntegrityError _) => inl (ValueError ProjectExists)
             | inl e => inl e
             | inr conn' => inr (conn', tt)
             end) d
    end.

(** [BudgetHandler.handle_add_expense] *)
Definition handle_add_expense (today : date) (f : form) (d : db)
  : db * (exn + unit) :=
  match int_of_string (form_project_id f) with
  | None => (d, inl (ValueError (InvalidInt (form_project_id f))))
  | Some project_id =>
      match parse_float (form_amount f) with
      | inl e => (d, inl e)
      | inr amount =>
          if negb (truthy (form_description f)) then
            (d, inl (ValueError ExpenseDescriptionRequired))
          else
            with_conn
              (fun conn =>
                 match select_id conn project_id with
                 | None => inl (ValueError ProjectNotFound)
                 | Some _ =>
                     match insert_expense conn project_id amount
                             (form_description f)
                             (form_expense_date today f) with
                     | inl e => inl e
                     | inr conn' => inr (conn', tt)
                     end
                 end) d
      end
  end.

End Handlers.
Export Handlers.

(** The stores the program can reach from a new database through its
    insertion paths. *)
Inductive reachable : db -> Prop :=
  | reach_init : reachable empty_db
  | reach_add_project today f d :
      reachable d -> reachable (handle_add_project today f d).1
  | reach_add_expense today f d :
      reachable d -> reachable (handle_add_expense today f d).1
  | reach_import today rows d :
      reachable d -> reachable (import_rows today rows d).1.

(** ** Predicates used in the statements *)

(** A result that carries the sign [sx] and is a number. *)
Definition signed_result (sx : bool) (r : float) : Prop :=
  r = S754_zero sx \/ r = S754_infinity sx
  \/ exists m e, r = S754_finite sx m e.



(** The literals whose float [parse_float] returns: [nan], [+inf], every
    unsigned decimal, and a signed decimal only when it rounds to
    [-0.0]. *)
Definition accepted_literal (l : literal) : Prop :=
  match l with
  | LNan => True
  | LInf neg => neg = false
  | LDec neg _ _ _ => neg = false \/ float_of_literal l = S754_zero true
  end.



(** Every expense points at a project of the store. *)
Definition no_orphans (d : db) : Prop :=
  forall e, e ∈ expenses d -> exists p, p ∈ projects d /\ p_id p = e_project_id e.

(** The store after one more project row. *)
Definition with_project (d : db) (name : string) (budget : float)
    (created_at : string) : db :=
  {| projects := projects d ++
       [{| p_id := next_rowid (p_id <$> projects d);
           p_name := name;
           p_planned_budget := budget;
           p_created_at := created_at |}];
     expenses := expenses d |}.

(** The store after one more expense row. *)
Definition with_expense (d : db) (project_id : Z) (amount : float)
    (description expense_date : string) : db :=
  {| projects := projects d;
     expenses := expenses d ++
       [{| e_id := next_rowid (e_id <$> expenses d);
           e_project_id := project_id;
           e_amount := amount;
           e_description := description;
           e_expense_date := expense_date |}] |}.

(** A text without leading or trailing white space. *)
Definition clean (s : string) : Prop := strip s = s.

(** An amount that [parse_float] returns and the store accepts. *)
Definition valid_amount (x : float) : Prop :=
  is_nan x = false /\ fltb x fzero = false.

(** The two ways the store ever changes: one validated project row or one
    validated expense row is appended. *)
Inductive store_step : db -> db -> Prop :=
  | step_project c name budget created_at :
      name <> "" -> clean name ->
      select_id_by_name c name = None ->
      valid_amount budget -> clean created_at ->
      store_step c (with_project c name budget created_at)
  | step_expense c project_id amount description expense_date :
      (exists p, p ∈ projects c /\ p_id p = project_id) ->
      valid_amount amount ->
      description <> "" -> clean description -> clean expense_date ->
      store_step c (with_expense c project_id amount description expense_date).

Definition project_ok (p : project) : Prop :=
  p_name p <> "" /\ clean (p_name p)
  /\ valid_amount (p_planned_budget p) /\ clean (p_created_at p).

Definition expense_ok (e : expense) : Prop :=
  valid_amount (e_amount e) /\ e_description e <> ""
  /\ clean (e_description e) /\ clean (e_expense_date e).

(** What every reachable store satisfies. *)
Definition store_ok (d : db) : Prop :=
  NoDup (p_name <$> projects d)
  /\ Forall project_ok (projects d)
  /\ Forall expense_ok (expenses d)
  /\ no_orphans d.



(** The float that [float()] reads back from the two-decimal text of
    [x]: [x] rounded to hundredths and then to binary64. *)
Definition round2 (x : float) : float :=
  default x (float_of_string (format_2f x)).

Fixpoint all_digits (s : string) : bool :=
  match s with
  | EmptyString => true
  | String c s' => is_digit c && all_digits s'
  end.

(** What a stored expense shows: amount, description, expense_date. *)
Definition expense_view (e : expense) : float * string * string :=
  (e_amount e, e_description e, e_expense_date e).

(** The projects of a store in id order, each as name, planned_budget,
    created_at and the list of its expenses in id order. *)
Definition content (d : db)
  : list (string * float * string * list (float * string * string)) :=
  (fun p => (p_name p, p_planned_budget p, p_created_at p,
             expense_view <$> expenses_by_name d (p_name p)))
  <$> projects d.



(** A project with the expenses exported under its name. *)
Definition entries (d : db) : list (project * list expense) :=
  (fun p => (p, expenses_by_name d (p_name p))) <$> projects d.

(** The rows [export_rows] emits for one project. *)
Definition block_rows (b : project * list expense) : list row :=
  project_out b.1 :: (expense_out b.1 <$> b.2).

Definition block_entry (b : project * list expense)
  : string * float * string * list (float * string * string) :=
  (p_name b.1, p_planned_budget b.1, p_created_at b.1, expense_view <$> b.2).





(** ** Example data *)

(** The two rows of the specification's import example. *)
Definition roof_rows : list row :=
  [ list_to_map [("Project", "Roof"); ("Budget", "1000");
                 ("CreatedAt", "2024-01-01")];
    list_to_map [("Project", "Roof"); ("ExpenseAmount", "150.5");
                 ("ExpenseDescription", "Tiles");
                 ("ExpenseDate", "2024-01-02")] ].

(** A project row, a row with a negative budget, an expense row. *)
Definition rows_with_bad_budget : list row :=
  [ list_to_map [("Project", "Roof"); ("Budget", "1000")];
    list_to_map [("Project", "Shed"); ("Budget", "-5")];
    list_to_map [("Project", "Roof"); ("ExpenseAmount", "20")] ].


(** A project form. *)
Definition roof_form : form :=
  list_to_map [("name", "Roof"); ("planned_budget", "10")].



(** A project form whose date field is one space. *)
Definition blank_date_form : form :=
  list_to_map [("name", "Roof"); ("planned_budget", "10");
               ("created_at", " ")].

Definition a_day : date := {| year := 2024; month := 3; day := 9 |}.

(** ** The expense list and the texts of numbers *)

(** A row of [query_expenses]: id, amount, description, expense_date. *)
Record expense_row := {
  x_id : Z;
  x_amount : float;
  x_description : string;
  x_expense_date : string }.

(** [ORDER BY]: the rows put in order one by one, [before a b] telling
    whether [a] has to come before [b]. *)
Fixpoint insert_by {A} (before : A -> A -> bool) (a : A) (l : list A)
  : list A :=
  match l with
  | [] => [a]
  | b :: l' => if before a b then a :: l else b :: insert_by before a l'
  end.

Definition sort_by {A} (before : A -> A -> bool) (l : list A) : list A :=
  foldr (insert_by before) [] l.

(** [ORDER BY expense_date DESC, id DESC] *)
Definition expense_before (a b : expense_row) : bool :=
  match String.compare (x_expense_date a) (x_expense_date b) with
  | Gt => true
  | Lt => false
  | Eq => x_id b <? x_id a
  end.

Definition expense_row_of (e : expense) : expense_row :=
  {| x_id := e_id e;
     x_amount := e_amount e;
     x_description := e_description e;
     x_expense_date := e_expense_date e |}.

(** [query_expenses(project_id)] *)
Definition query_expenses (d : db) (project_id : Z) : list expense_row :=
  sort_by expense_before
    (expense_row_of
       <$> filter (fun e => e_project_id e = project_id) (expenses d)).

(** [str(n)] and [f"{n}"] for an [int]. *)
Definition py_str_int (n : Z) : string :=
  if n <? 0 then String "-" (dec_string (- n)) else dec_string n.

(** A list in the order that [before] asks for: no element has to come
    before an earlier one. *)
Definition in_order {A} (before : A -> A -> bool) (l : list A) : Prop :=
  StronglySorted (fun a b => before b a = false) l.

(** The text is the literal [nan], whatever its sign and case. *)
Definition nan_text (s : string) : Prop :=
  parse_literal (strip s) = Some LNan.

(** What [import_rows] stores for a date field that [export_rows] wrote:
    the empty text comes back as today's date. *)
Definition restore_date (today : date) (s : string) : string :=
  if truthy s then s else isoformat today.

Definition restore_view (today : date) (v : float * string * string)
  : float * string * string :=
  (round2 v.1.1, v.1.2, restore_date today v.2).

Definition restore_entry (today : date)
    (en : string * float * string * list (float * string * string))
  : string * float * string * list (float * string * string) :=
  (en.1.1.1, round2 en.1.1.2, restore_date today en.1.2,
   restore_view today <$> en.2).

(** The store after the expense rows of one block are imported under
    project [project_id], empty dates restored. *)
Definition add_expenses_restored (today : date) (c : db) (project_id : Z)
    (es : list expense) : db :=
  fold_left
    (fun c e => with_expense c project_id (round2 (e_amount e))
                  (e_description e)
                  (restore_date today (e_expense_date e)))
    es c.

(** A form that carries nothing but a description. *)
Definition no_id_form : form :=
  list_to_map [("amount", "5"); ("description", "Nails")].


(** A row without a project name and with a budget that is no number. *)
Definition nameless_row : row :=
  list_to_map [("Project", "  "); ("Budget", "abc");
               ("ExpenseAmount", "-1")].

(** A project without a bound, with an expense without a bound. *)
Definition unbounded_rows : list row :=
  [ list_to_map [("Project", "Moon"); ("Budget", "inf");
                 ("ExpenseAmount", "inf")] ].

(** The row that says what [roof_form] says. *)
Definition roof_budget_row : row :=
  list_to_map [("Project", "Roof"); ("Budget", "10")].


(** The store after the import example. *)
Definition roof_store : db := (import_rows a_day roof_rows empty_db).1.

(** The ids of a table are 1, 2, ... in the order of the table. *)
Definition counted (ids : list Z) : Prop :=
  ids = Z.of_nat <$> seq 1 (length ids).

(** The store after a whole block is imported, empty dates restored. *)
Definition add_block_restored (today : date) (c : db)
    (b : project * list expense) : db :=
  add_expenses_restored today
    (with_project c (p_name b.1) (round2 (p_planned_budget b.1))
       (restore_date today (p_created_at b.1)))
    (next_rowid (p_id <$> projects c)) b.2.

(** An entry whose expenses are followed by their imported copies. *)
Definition repeat_entry (today : date)
    (en : string * float * string * list (float * string * string))
  : string * float * string * list (float * string * string) :=
  (en.1, (en.2 ++ (restore_view today <$> en.2))%list).

(** [ORDER BY text DESC, id DESC] on the pair of the two columns. *)
Definition desc_before (a b : string * Z) : bool :=
  match String.compare a.1 b.1 with
  | Gt => true
  | Lt => false
  | Eq => b.2 <? a.2
  end.

(** * Properties *)

(** ** Stripping *)

Section StripFacts.

Lemma truthy_false s : truthy s = false <-> s = "".
Proof. destruct s; simpl; split; congruence. Qed.

Lemma truthy_true s : truthy s = true <-> s <> "".
Proof. destruct s; simpl; split; congruence. Qed.

Lemma lstrip_shape s :
  lstrip s = "" \/ exists c t, lstrip s = String c t /\ py_isspace c = false.
Proof.
  induction s as [|c s IH]; simpl; [by left|].
  destruct (py_isspace c) eqn:E; [done|]. right. eauto.
Qed.

Lemma lstrip_nonspace c s :
  py_isspace c = false -> lstrip (String c s) = String c s.
Proof. intros E. simpl. by rewrite E. Qed.

Lemma rstrip_idemp s : rstrip (rstrip s) = rstrip s.
Proof.
  induction s as [|c s IH]; simpl; [done|].
  destruct (rstrip s) as [|c' r] eqn:E.
  - destruct (py_isspace c) eqn:Ec; simpl; [done|]. by rewrite Ec.
  - change (rstrip (String c (String c' r))) with
      (match rstrip (String c' r) with
       | "" => if py_isspace c then "" else String c ""
       | String a b => String c (String a b)
       end).
    by rewrite IH.
Qed.

Lemma rstrip_head_nonspace c s :
  py_isspace c = false -> exists t, rstrip (String c s) = String c t.
Proof.
  intros E. simpl. destruct (rstrip s); [rewrite E|]; eauto.
Qed.

Lemma strip_idemp s : strip (strip s) = strip s.
Proof.
  unfold strip. destruct (lstrip_shape s) as [->|(c & t & -> & E)]; [done|].
  destruct (rstrip_head_nonspace c t E) as [t' Ht]. rewrite Ht.
  rewrite (lstrip_nonspace _ _ E), <- Ht. apply rstrip_idemp.
Qed.

Lemma rstrip_snoc s c :
  py_isspace c = false -> rstrip (s +:+ String c "") = s +:+ String c "".
Proof.
  intros E. induction s as [|a s IH]; simpl.
  - by rewrite E.
  - rewrite IH. by destruct s.
Qed.

Lemma rstrip_app_snoc s t c :
  py_isspace c = false ->
  rstrip (s +:+ t +:+ String c "") = s +:+ t +:+ String c "".
Proof.
  intros E. induction s as [|a s IH]; simpl.
  - by apply rstrip_snoc.
  - rewrite IH. destruct s; simpl; [by destruct t|done].
Qed.

(** A text whose first and last characters are not spaces is its own
    strip. *)
Lemma strip_fixed c s d :
  py_isspace c = false -> py_isspace d = false ->
  strip (String c (s +:+ String d "")) = String c (s +:+ String d "").
Proof.
  intros Ec Ed. unfold strip. rewrite (lstrip_nonspace _ _ Ec).
  apply (rstrip_snoc (String c s) d Ed).
Qed.

End StripFacts.

(** ** Rounding to binary64 *)

Section RoundingFacts.

Lemma shr_1_nonneg mrs : 0 <= shr_m mrs -> 0 <= shr_m (shr_1 mrs).
Proof.
  destruct mrs as [m r s]. simpl. destruct m as [|p|p]; simpl; try lia.
  destruct p; simpl; lia.
Qed.

Lemma iter_pos_shr_1_nonneg p mrs :
  0 <= shr_m mrs -> 0 <= shr_m (SpecFloat.iter_pos shr_1 p mrs).
Proof.
  revert mrs. induction p as [p IH|p IH|]; intros mrs H; simpl.
  - apply IH, IH, shr_1_nonneg, H.
  - apply IH, IH, H.
  - apply shr_1_nonneg, H.
Qed.

Lemma shr_record_of_loc_m m l : shr_m (shr_record_of_loc m l) = m.
Proof. destruct l as [|[]]; reflexivity. Qed.

Lemma shr_fexp_nonneg m e l :
  0 <= m -> 0 <= shr_m (shr_fexp prec emax m e l).1.
Proof.
  intros H. unfold shr_fexp, shr.
  destruct (fexp prec emax (Zdigits2 m + e) - e) as [|p|p]; simpl;
    rewrite ?shr_record_of_loc_m; try done.
  apply iter_pos_shr_1_nonneg. by rewrite shr_record_of_loc_m.
Qed.

Lemma round_nearest_even_nonneg m l :
  0 <= m -> 0 <= round_nearest_even m l.
Proof.
  intros H. destruct l as [|[]]; simpl; try lia.
  destruct (Z.even m); lia.
Qed.

Lemma binary_round_aux_signed sx mx ex lx :
  0 <= mx -> signed_result sx (binary_round_aux prec emax sx mx ex lx).
Proof.
  intros H. unfold binary_round_aux.
  pose proof (shr_fexp_nonneg mx ex lx H) as H1.
  destruct (shr_fexp prec emax mx ex lx) as [mrs' e'] eqn:E1. simpl in H1.
  pose proof (round_nearest_even_nonneg _ (loc_of_shr_record mrs') H1) as H2.
  pose proof (shr_fexp_nonneg _ e' loc_Exact H2) as H3.
  destruct (shr_fexp prec emax _ e' loc_Exact) as [mrs'' e''] eqn:E2.
  simpl in H3. unfold signed_result.
  destruct (shr_m mrs'') as [|m|m]; [by left| |lia].
  destruct (e'' <=? emax - prec); eauto.
Qed.

Lemma binary_round_signed sx mx ex :
  signed_result sx (binary_round prec emax sx mx ex).
Proof.
  unfold binary_round. destruct (shl_align _ _ _) as [mz ez].
  by apply binary_round_aux_signed.
Qed.

Lemma SFdiv_core_binary_nonneg m1 e1 m2 e2 :
  0 <= m1 -> 0 < m2 ->
  0 <= (SFdiv_core_binary prec emax m1 e1 m2 e2).1.1.
Proof.
  intros H1 H2. unfold SFdiv_core_binary.
  set (s := _ - _ - _).
  set (m' := match s with 0 => m1 | Z.pos _ => Z.shiftl m1 s | Z.neg _ => 0 end).
  assert (0 <= m') as Hm'.
  { subst m'. destruct s; try lia. by apply Z.shiftl_nonneg. }
  pose proof (Z.div_pos m' m2 Hm' H2) as Hq. unfold Z.div in Hq.
  by destruct (Z.div_eucl m' m2).
Qed.

Lemma float_of_decimal_signed neg m e10 :
  0 <= m -> signed_result neg (float_of_decimal neg m e10).
Proof.
  intros H. unfold float_of_decimal. destruct m as [|p|p]; [by left| |lia].
  destruct (0 <=? e10) eqn:He; [apply binary_round_signed|].
  assert (0 < 10 ^ (- e10)) as Hpow by (apply Z.pow_pos_nonneg; lia).
  pose proof (SFdiv_core_binary_nonneg (Z.pos p) 0 (10 ^ (- e10)) 0) as Hq.
  destruct (SFdiv_core_binary _ _ _ _ _ _) as [[q e'] l]. simpl in Hq.
  apply binary_round_aux_signed, Hq; lia.
Qed.

Lemma fold_digits_nonneg ds acc :
  0 <= acc -> 0 <= fold_left (fun a d => 10 * a + digit_val d) ds acc.
Proof.
  revert acc. induction ds as [|d ds IH]; intros acc Hacc; simpl; [done|].
  apply IH. unfold digit_val. lia.
Qed.

Lemma digits_value_nonneg ds : 0 <= digits_value ds.
Proof. by apply fold_digits_nonneg. Qed.

Lemma fltb_signed_false r : signed_result false r -> fltb r fzero = false.
Proof. by intros [->|[->|(m & e & ->)]]. Qed.

Lemma fltb_signed_true r :
  signed_result true r -> fltb r fzero = false <-> r = S754_zero true.
Proof. intros [->|[->|(m & e & ->)]]; by split. Qed.

End RoundingFacts.

(** ** [parse_float] *)

Section ParseFloatFacts.

Lemma float_of_literal_signed neg ds fs e :
  signed_result neg (float_of_literal (LDec neg ds fs e)).
Proof. apply float_of_decimal_signed, digits_value_nonneg. Qed.

Lemma fltb_accepted l :
  fltb (float_of_literal l) fzero = false <-> accepted_literal l.
Proof.
  destruct l as [|[]|[] ds fs e].
  - by split.
  - by split.
  - by split.
  - rewrite (fltb_signed_true _ (float_of_literal_signed true ds fs e)).
    unfold accepted_literal. intuition congruence.
  - rewrite (fltb_signed_false _ (float_of_literal_signed false ds fs e)).
    unfold accepted_literal. intuition.
Qed.

Lemma parse_float_inr s v :
  parse_float s = inr v <->
  exists l, parse_literal (strip s) = Some l
            /\ v = float_of_literal l /\ accepted_literal l.
Proof.
  unfold parse_float, float_of_string.
  destruct (parse_literal (strip s)) as [l|]; simpl.
  - destruct (fltb (float_of_literal l) fzero) eqn:E; split.
    + done.
    + intros (l' & [= <-] & -> & Ha). apply fltb_accepted in Ha. congruence.
    + intros [= <-]. exists l. by rewrite <- fltb_accepted.
    + by intros (l' & [= <-] & -> & Ha).
  - split; [done|]. by intros (l' & ? & _).
Qed.

Lemma parse_float_inl s e : parse_float s = inl e -> InvalidAmountError e.
Proof.
  unfold parse_float, InvalidAmountError.
  destruct (float_of_string s) as [x|]; [destruct (fltb x fzero)|];
    intros [= <-]; eauto.
Qed.


End ParseFloatFacts.

(** What [parse_float] does on some texts. *)
Example parse_float_examples :
  parse_float "150.5" = inr (S754_finite false 5295247999369216 (-45))
  /\ parse_float " 1_000 " = inr (S754_finite false 8796093022208000 (-43))
  /\ parse_float ".5e1" = inr (S754_finite false 5629499534213120 (-50))
  /\ parse_float "0.1" = inr (S754_finite false 7205759403792794 (-56))
  /\ parse_float "-5" = inl (ValueError NegativeValue)
  /\ parse_float "-inf" = inl (ValueError NegativeValue)
  /\ parse_float "12 3" = inl (ValueError (InvalidNumber "12 3"))
  /\ parse_float "1__0" = inl (ValueError (InvalidNumber "1__0"))
  /\ parse_float "" = inl (ValueError (InvalidNumber ""))
  /\ parse_float "Infinity" = inr (S754_infinity false)
  /\ parse_float "1e400" = inr (S754_infinity false)
  /\ parse_float "-0" = inr (S754_zero true)
  /\ parse_float "-1e-400" = inr (S754_zero true).
Proof. repeat split; by vm_compute. Qed.



(** ** The import example *)

(** C3: importing the two Roof rows into an empty store returns the counts
    (1, 1); the Roof project then has spent = 150.50 and
    remaining = 849.50. *)
Theorem C3_roof_import (today : date) :
  let res := import_rows today roof_rows empty_db in
  res.2 = inr (1%nat, 1%nat)
  /\ exists id r,
       select_id_by_name res.1 "Roof" = Some id
       /\ query_project res.1 id = Some r
       /\ r_name r = "Roof"
       /\ Some (r_spent r) = float_of_string "150.50"
       /\ r_remaining r = float_of_string "849.50"
       /\ format_2f (r_spent r) = "150.50"
       /\ format_2f <$> r_remaining r = Some "849.50".
Proof.
  split; [by vm_compute|].
  eexists 1, _. split; [by vm_compute|]. split; [by vm_compute|].
  repeat split; by vm_compute.
Qed.

(** ** Dates *)

Section DateFacts.

Lemma digit_char_cases d :
  0 <= d < 10 ->
  is_digit (digit_char d) = true /\ py_isspace (digit_char d) = false.
Proof.
  intros H.
  assert (d = 0 \/ d = 1 \/ d = 2 \/ d = 3 \/ d = 4 \/ d = 5 \/ d = 6
          \/ d = 7 \/ d = 8 \/ d = 9) as Hd by lia.
  repeat destruct Hd as [->|Hd]; try subst d; by split.
Qed.

Lemma digit_char_mod_space z : py_isspace (digit_char (z mod 10)) = false.
Proof. apply digit_char_cases, Z.mod_pos_bound. lia. Qed.

Lemma digit_char_mod_digit z : is_digit (digit_char (z mod 10)) = true.
Proof. apply digit_char_cases, Z.mod_pos_bound. lia. Qed.

Lemma isoformat_strip today : strip (isoformat today) = isoformat today.
Proof.
  unfold isoformat.
  repeat match goal with
         | |- context [digit_char (?z mod 10)] =>
             let c := fresh "c" in
             let E := fresh "E" in
             pose proof (digit_char_mod_space z) as E;
             set (c := digit_char (z mod 10)) in *; clearbody c
         end.
  unfold strip. rewrite lstrip_nonspace by done. simpl.
  by repeat match goal with H : py_isspace _ = false |- _ =>
                              rewrite H; clear H end.
Qed.

Lemma isoformat_truthy today : truthy (isoformat today) = true.
Proof. reflexivity. Qed.




End DateFacts.

(** ** The store *)

Section StoreFacts.

Lemma find_app_none {A} (f : A -> bool) l l' :
  List.find f l = None -> List.find f (l ++ l') = List.find f l'.
Proof.
  induction l as [|a l IH]; simpl; [done|].
  destruct (f a); [done|exact IH].
Qed.

Lemma find_app_some {A} (f : A -> bool) l l' a :
  List.find f l = Some a -> List.find f (l ++ l') = Some a.
Proof.
  induction l as [|b l IH]; simpl; [done|].
  destruct (f b); [done|exact IH].
Qed.

Lemma select_id_by_name_None d name :
  select_id_by_name d name = None <->
  forall p, p ∈ projects d -> p_name p <> name.
Proof.
  unfold select_id_by_name. split.
  - intros H p Hp Hn.
    destruct (List.find _ (projects d)) eqn:E; [done|].
    apply list_elem_of_In in Hp.
    pose proof (find_none _ _ E p Hp) as Hf. simpl in Hf.
    apply String.eqb_neq in Hf. done.
  - intros H. destruct (List.find _ (projects d)) as [p|] eqn:E; [|done].
    apply find_some in E as [Hin Heq]. apply String.eqb_eq in Heq.
    apply list_elem_of_In in Hin. by destruct (H p Hin).
Qed.

Lemma select_id_by_name_Some d name id :
  select_id_by_name d name = Some id ->
  exists p, p ∈ projects d /\ p_name p = name /\ p_id p = id.
Proof.
  unfold select_id_by_name.
  destruct (List.find _ (projects d)) as [p|] eqn:E; [|done].
  intros [= <-]. apply find_some in E as [Hin Heq].
  apply String.eqb_eq in Heq. apply list_elem_of_In in Hin. eauto.
Qed.

Lemma select_id_Some d id id' :
  select_id d id = Some id' ->
  id' = id /\ exists p, p ∈ projects d /\ p_id p = id.
Proof.
  unfold select_id.
  destruct (List.find _ (projects d)) as [p|] eqn:E; [|done].
  intros [= <-]. apply find_some in E as [Hin Heq].
  apply Z.eqb_eq in Heq. apply list_elem_of_In in Hin. eauto.
Qed.

Lemma insert_project_inr d name budget created_at d' :
  insert_project d name budget created_at = inr d' ->
  d' = with_project d name budget created_at
  /\ is_nan budget = false /\ select_id_by_name d name = None.
Proof.
  unfold insert_project, sql_real.
  destruct (is_nan budget) eqn:En; [done|].
  destruct (select_id_by_name d name); [done|]. by intros [= <-].
Qed.

Lemma insert_project_fresh d name budget created_at :
  is_nan budget = false -> select_id_by_name d name = None ->
  insert_project d name budget created_at
  = inr (with_project d name budget created_at).
Proof.
  intros En Hs. unfold insert_project, sql_real. by rewrite En, Hs.
Qed.

Lemma insert_expense_inr d pid amount desc date d' :
  insert_expense d pid amount desc date = inr d' ->
  d' = with_expense d pid amount desc date /\ is_nan amount = false.
Proof.
  unfold insert_expense, sql_real.
  destruct (is_nan amount) eqn:En; [done|]. by intros [= <-].
Qed.

Lemma insert_expense_ok d pid amount desc date :
  is_nan amount = false ->
  insert_expense d pid amount desc date
  = inr (with_expense d pid amount desc date).
Proof. intros En. unfold insert_expense, sql_real. by rewrite En. Qed.

Lemma select_with_project_same d name budget created_at :
  select_id_by_name d name = None ->
  select_id_by_name (with_project d name budget created_at) name
  = Some (next_rowid (p_id <$> projects d)).
Proof.
  unfold select_id_by_name. simpl.
  destruct (List.find _ (projects d)) eqn:E; [done|]. intros _.
  rewrite (find_app_none _ _ _ E). simpl. by rewrite String.eqb_refl.
Qed.

Lemma select_with_expense d pid amount desc date name :
  select_id_by_name (with_expense d pid amount desc date) name
  = select_id_by_name d name.
Proof. reflexivity. Qed.

End StoreFacts.

(** ** The import loop *)

Section ImportFacts.

Lemma parse_float_empty : parse_float "" = inl (ValueError (InvalidNumber "")).
Proof. reflexivity. Qed.

Lemma parse_float_truthy s v : parse_float s = inr v -> truthy s = true.
Proof. destruct s; [by rewrite parse_float_empty|done]. Qed.

Lemma import_loop_app today pre post st :
  import_loop today (pre ++ post) st =
  match import_loop today pre st with
  | inl e => inl e
  | inr st' => import_loop today post st'
  end.
Proof.
  revert st. induction pre as [|r pre IH]; intros st; simpl; [done|].
  destruct (import_row today st r); [done|apply IH].
Qed.


(** A row with no budget whose project is unknown changes nothing. *)
Lemma import_row_unknown_project today conn pa ea r a :
  row_budget_text r = "" ->
  parse_float (row_expense_amount r) = inr a ->
  select_id_by_name conn (row_name r) = None ->
  import_row today (conn, pa, ea) r = inr (conn, pa, ea).
Proof.
  intros Hb Ha Hs. unfold import_row.
  destruct (truthy (row_name r)); simpl; [|done].
  unfold import_budget, import_expense. rewrite Hb. simpl.
  by rewrite (parse_float_truthy _ _ Ha), Ha, Hs.
Qed.


Lemma import_rows_cons_skip today r rows d :
  (forall st, import_row today st r = inr st) ->
  import_rows today (r :: rows) d = import_rows today rows d.
Proof. intros H. unfold import_rows, with_conn. simpl. by rewrite H. Qed.

End ImportFacts.

(** C6: a row with a valid expense amount, no budget and a project name
    that matches no project creates nothing, raises nothing, and the loop
    goes on with the rows that follow. *)
Theorem C6_unknown_project_skipped today (d : db) (r : row) (rest : list row)
    (a : float) :
  row_budget_text r = "" ->
  parse_float (row_expense_amount r) = inr a ->
  select_id_by_name d (row_name r) = None ->
  (forall pa ea, import_row today (d, pa, ea) r = inr (d, pa, ea))
  /\ (forall pa ea, import_loop today (r :: rest) (d, pa, ea)
                    = import_loop today rest (d, pa, ea))
  /\ import_rows today (r :: rest) d = import_rows today rest d
  /\ import_rows today [r] d = (d, inr (0%nat, 0%nat)).
Proof.
  intros Hb Ha Hs.
  assert (forall pa ea, import_row today (d, pa, ea) r = inr (d, pa, ea)) as H
    by (intros; by eapply import_row_unknown_project).
  split; [exact H|]. split; [|split].
  - intros pa ea. simpl. by rewrite H.
  - unfold import_rows, with_conn. simpl. by rewrite H.
  - unfold import_rows, with_conn. simpl. by rewrite H.
Qed.

Lemma C6_witness :
  import_rows a_day
    [list_to_map [("Project", "Attic"); ("ExpenseAmount", "12.5")]]
    (import_rows a_day roof_rows empty_db).1
  = ((import_rows a_day roof_rows empty_db).1, inr (0%nat, 0%nat)).
Proof.
  refine (proj2 (proj2 (proj2
    (C6_unknown_project_skipped a_day _ _ []
       (S754_finite false 7036874417766400 (-49)) _ _ _))));
    by vm_compute.
Defined.



(** C9: when [import_rows] raises, the store is the one it started from:
    the connection rolls back whatever the rows before the failing one
    inserted. *)
Theorem C9_import_rolls_back today (rows : list row) (d : db) (e : exn) :
  (import_rows today rows d).2 = inl e ->
  (import_rows today rows d).1 = d.
Proof.
  unfold import_rows, with_conn.
  destruct (import_loop today rows _) as [e'|[[conn pa] ea]]; simpl; done.
Qed.

(** The loop had inserted the first project when the second row raised;
    the store that comes back has none. A budget of [nan] passes
    [parse_float] and is refused by the NOT NULL column. *)
Example import_discards_progress :
  import_loop a_day (take 1 rows_with_bad_budget) (empty_db, 0%nat, 0%nat)
  = inr (with_project empty_db "Roof"
           (S754_finite false 8796093022208000 (-43)) "2024-03-09",
         1%nat, 0%nat)
  /\ import_rows a_day rows_with_bad_budget empty_db
     = (empty_db, inl (ValueError NegativeValue))
  /\ import_rows a_day
       [list_to_map [("Project", "Roof"); ("Budget", "nan")]] empty_db
     = (empty_db, inl (IntegrityError (NotNull "projects.planned_budget"))).
Proof. repeat split; by vm_compute. Qed.

Lemma C9_witness :
  (import_rows a_day rows_with_bad_budget empty_db).1 = empty_db.
Proof.
  apply (C9_import_rolls_back a_day rows_with_bad_budget empty_db
           (ValueError NegativeValue)).
  by vm_compute.
Defined.

Section ImportRowFacts.


End ImportRowFacts.



(** ** Adding a project twice *)

Section AddProjectFacts.

Lemma select_id_by_name_elem d p :
  p ∈ projects d -> is_Some (select_id_by_name d (p_name p)).
Proof.
  intros Hp. destruct (select_id_by_name d (p_name p)) eqn:E; [eauto|].
  rewrite select_id_by_name_None in E. by destruct (E p Hp).
Qed.

Lemma add_project_existing today f d b :
  form_name f <> "" ->
  parse_float (form_planned_budget f) = inr b ->
  is_Some (select_id_by_name d (form_name f)) ->
  handle_add_project today f d = (d, inl (ValueError ProjectExists)).
Proof.
  intros Hn Hb [id Hid]. unfold handle_add_project.
  apply truthy_true in Hn. rewrite Hn, Hb. cbn [negb].
  unfold with_conn, insert_project. rewrite Hid.
  by destruct (sql_real b).
Qed.

Lemma add_project_success today f d d1 :
  handle_add_project today f d = (d1, inr tt) ->
  exists b, d1 = with_project d (form_name f) b (form_created_at today f)
            /\ select_id_by_name d (form_name f) = None.
Proof.
  unfold handle_add_project.
  destruct (truthy (form_name f)); cbn [negb]; [|done].
  destruct (parse_float (form_planned_budget f)) as [e|b]; [done|].
  unfold with_conn.
  destruct (insert_project d _ b _) as [[]|d'] eqn:E; try done.
  intros [= <-]. apply insert_project_inr in E as (-> & _ & Hs). eauto.
Qed.

End AddProjectFacts.

(** C5: with a valid name and budget, adding a project whose name is
    already in the store fails with the project-exists error and leaves
    the store, hence that project and its expenses, as it was; so the
    second of two additions under one name is rejected. *)
Theorem C5_duplicate_name_rejected today (f : form) (d : db) (b : float) :
  form_name f <> "" ->
  parse_float (form_planned_budget f) = inr b ->
  ((exists p, p ∈ projects d /\ p_name p = form_name f) ->
   handle_add_project today f d = (d, inl (ValueError ProjectExists)))
  /\ (forall d1, handle_add_project today f d = (d1, inr tt) ->
      forall today' f' b',
        form_name f' = form_name f ->
        parse_float (form_planned_budget f') = inr b' ->
        handle_add_project today' f' d1
        = (d1, inl (ValueError ProjectExists))).
Proof.
  intros Hn Hb. split.
  - intros (p & Hp & Hname). eapply add_project_existing; [done..|].
    rewrite <- Hname. by apply select_id_by_name_elem.
  - intros d1 H1 today' f' b' Hsame Hb'.
    apply add_project_success in H1 as (b1 & -> & Hs).
    eapply add_project_existing; [by rewrite Hsame|done|].
    rewrite Hsame, (select_with_project_same _ _ _ _ Hs). eauto.
Qed.

Lemma C5_witness :
  handle_add_project a_day roof_form (import_rows a_day roof_rows empty_db).1
  = ((import_rows a_day roof_rows empty_db).1,
     inl (ValueError ProjectExists)).
Proof.
  refine (proj1 (C5_duplicate_name_rejected a_day roof_form _
                   (S754_finite false 5629499534213120 (-49)) _ _) _).
  - by vm_compute.
  - by vm_compute.
  - exists {| p_id := 1; p_name := "Roof";
              p_planned_budget := S754_finite false 8796093022208000 (-43);
              p_created_at := "2024-01-01" |}.
    split; [|by vm_compute].
    apply list_elem_of_In. vm_compute. by left.
Defined.

(** ** Every operation is a sequence of validated insertions *)

Section StepFacts.

Lemma clean_strip s : clean (strip s).
Proof. apply strip_idemp. Qed.

Lemma parse_float_valid s x :
  parse_float s = inr x -> is_nan x = false -> valid_amount x.
Proof.
  unfold parse_float. destruct (float_of_string s) as [y|]; [|done].
  destruct (fltb y fzero) eqn:E; [done|]. by intros [= <-].
Qed.

Lemma description_or_default s :
  let desc := or_default (Some (strip s)) "Imported expense" in
  desc <> "" /\ clean desc.
Proof.
  simpl. destruct (truthy (strip s)) eqn:E.
  - split; [by apply truthy_true|apply clean_strip].
  - by split.
Qed.

Lemma import_budget_step today c pa r c' pa' :
  row_name r <> "" ->
  import_budget today c pa r = inr (c', pa') -> rtc store_step c c'.
Proof.
  intros Hn. unfold import_budget.
  destruct (truthy (row_budget_text r)); [|by intros [= <- _]].
  destruct (parse_float (row_budget_text r)) as [e|b] eqn:Hb; [done|].
  destruct (select_id_by_name c (row_name r)) eqn:Hs; [by intros [= <- _]|].
  destruct (insert_project c _ b _) as [e|c1] eqn:Hi; [done|].
  intros [= <- _]. apply insert_project_inr in Hi as (-> & Hnan & _).
  apply rtc_once. constructor; try done.
  - apply clean_strip.
  - by eapply parse_float_valid.
  - apply clean_strip.
Qed.

Lemma import_expense_step today c ea r c' ea' :
  import_expense today c ea r = inr (c', ea') -> rtc store_step c c'.
Proof.
  unfold import_expense.
  destruct (truthy (row_expense_amount r)); [|by intros [= <- _]].
  destruct (parse_float (row_expense_amount r)) as [e|a] eqn:Ha; [done|].
  destruct (select_id_by_name c (row_name r)) as [pid|] eqn:Hs;
    [|by intros [= <- _]].
  destruct (insert_expense c pid a _ _) as [e|c1] eqn:Hi; [done|].
  intros [= <- _]. apply insert_expense_inr in Hi as (-> & Hnan).
  apply select_id_by_name_Some in Hs as (p & Hp & _ & Hid).
  apply rtc_once. constructor.
  - eauto.
  - by eapply parse_float_valid.
  - apply description_or_default.
  - apply description_or_default.
  - apply clean_strip.
Qed.

Lemma import_row_step today c pa ea r c' pa' ea' :
  import_row today (c, pa, ea) r = inr (c', pa', ea') -> rtc store_step c c'.
Proof.
  unfold import_row. destruct (truthy (row_name r)) eqn:Hn; cbn [negb];
    [|by intros [= <- _ _]].
  apply truthy_true in Hn.
  destruct (import_budget today c pa r) as [e|[c1 pa1]] eqn:Hb; [done|].
  destruct (import_expense today c1 ea r) as [e|[c2 ea2]] eqn:He; [done|].
  intros [= <- _ _]. etrans.
  - by eapply import_budget_step.
  - by eapply import_expense_step.
Qed.

Lemma import_loop_step today rows c pa ea c' pa' ea' :
  import_loop today rows (c, pa, ea) = inr (c', pa', ea') ->
  rtc store_step c c'.
Proof.
  revert c pa ea. induction rows as [|r rows IH]; intros c pa ea; simpl.
  - by intros [= <- _ _].
  - destruct (import_row today (c, pa, ea) r) as [e|[[c1 pa1] ea1]] eqn:Hr;
      [done|].
    intros H. etrans; [by eapply import_row_step|by eapply IH].
Qed.

Lemma import_rows_step today rows d :
  rtc store_step d (import_rows today rows d).1.
Proof.
  unfold import_rows, with_conn.
  destruct (import_loop today rows _) as [e|[[c pa] ea]] eqn:Hl; simpl;
    [done|]. by eapply import_loop_step.
Qed.

Lemma handle_add_project_step today f d :
  rtc store_step d (handle_add_project today f d).1.
Proof.
  unfold handle_add_project.
  destruct (truthy (form_name f)) eqn:Hn; cbn [negb]; [|done].
  destruct (parse_float (form_planned_budget f)) as [e|b] eqn:Hb; [done|].
  unfold with_conn.
  destruct (insert_project d _ b _) as [[]|d1] eqn:Hi; try done. simpl.
  apply insert_project_inr in Hi as (-> & Hnan & Hs).
  apply rtc_once. constructor; try done.
  - by apply truthy_true.
  - apply clean_strip.
  - by eapply parse_float_valid.
  - apply clean_strip.
Qed.

Lemma handle_add_expense_step today f d :
  rtc store_step d (handle_add_expense today f d).1.
Proof.
  unfold handle_add_expense.
  destruct (int_of_string (form_project_id f)) as [pid|]; [|done].
  destruct (parse_float (form_amount f)) as [e|a] eqn:Ha; [done|].
  destruct (truthy (form_description f)) eqn:Hd; cbn [negb]; [|done].
  unfold with_conn.
  destruct (select_id d pid) as [id'|] eqn:Hs; [|done].
  destruct (insert_expense d pid a _ _) as [e|d1] eqn:Hi; [done|]. simpl.
  apply insert_expense_inr in Hi as (-> & Hnan).
  apply select_id_Some in Hs as (_ & Hp).
  apply rtc_once. constructor; try done.
  - by eapply parse_float_valid.
  - by apply truthy_true.
  - apply clean_strip.
  - apply clean_strip.
Qed.

Lemma reachable_steps d : reachable d -> rtc store_step empty_db d.
Proof.
  induction 1 as [|today f d _ IH|today f d _ IH|today rows d _ IH];
    [done|..]; (etrans; [exact IH|]).
  - apply handle_add_project_step.
  - apply handle_add_expense_step.
  - apply import_rows_step.
Qed.

Lemma no_orphans_step c c' : store_step c c' -> no_orphans c -> no_orphans c'.
Proof.
  intros [c0 n b cr _ _ _ _ _|c0 pid a ds dt (p & Hp & Hid) _ _ _ _] Hc e;
    simpl.
  - intros He. destruct (Hc e He) as (q & Hq & Hqid).
    exists q. split; [|done]. apply elem_of_app. by left.
  - rewrite elem_of_app, list_elem_of_singleton. intros [He| ->].
    + apply (Hc e He).
    + by exists p.
Qed.

Lemma no_orphans_steps c c' :
  rtc store_step c c' -> no_orphans c -> no_orphans c'.
Proof. induction 1; eauto using no_orphans_step. Qed.

Lemma no_orphans_empty : no_orphans empty_db.
Proof. intros e He. by apply not_elem_of_nil in He. Qed.

End StepFacts.

(** C8: no insertion path creates an orphan. If every expense of a store
    points at one of its projects, that still holds after adding a
    project, adding an expense or importing rows; hence it holds in every
    reachable store. *)
Theorem C8_no_orphan_expenses :
  (forall d, no_orphans d ->
     (forall today f, no_orphans (handle_add_project today f d).1)
     /\ (forall today f, no_orphans (handle_add_expense today f d).1)
     /\ (forall today rows, no_orphans (import_rows today rows d).1))
  /\ (forall d, reachable d -> no_orphans d).
Proof.
  split.
  - intros d Hd. repeat split; intros; eapply no_orphans_steps;
      eauto using handle_add_project_step, handle_add_expense_step,
        import_rows_step.
  - intros d Hd. eapply no_orphans_steps;
      eauto using reachable_steps, no_orphans_empty.
Qed.

(** ** Reachable stores are well formed *)

Section StoreOk.

Lemma select_None_not_in d name :
  select_id_by_name d name = None -> name ∉ p_name <$> projects d.
Proof.
  rewrite select_id_by_name_None. intros H Hin.
  apply list_elem_of_fmap in Hin as (p & -> & Hp). by apply (H p Hp).
Qed.

Lemma store_ok_step c c' : store_step c c' -> store_ok c -> store_ok c'.
Proof.
  intros Hstep (Hnd & Hps & Hes & Hno).
  pose proof (no_orphans_step _ _ Hstep Hno) as Hno'.
  destruct Hstep as [c n b cr Hn Hcn Hs Hb Hcr|c pid a ds dt Hp Ha Hd Hcd Hct];
    (split; [|split; [|split; [|exact Hno']]]); simpl.
  - rewrite fmap_app. apply NoDup_app. split; [done|]. split.
    + intros x Hx. simpl. rewrite list_elem_of_singleton. intros ->.
      by apply (select_None_not_in _ _ Hs).
    + apply NoDup_singleton.
  - apply Forall_app. split; [done|]. by apply Forall_singleton.
  - done.
  - done.
  - done.
  - apply Forall_app. split; [done|]. by apply Forall_singleton.
Qed.

Lemma store_ok_steps c c' : rtc store_step c c' -> store_ok c -> store_ok c'.
Proof. induction 1; eauto using store_ok_step. Qed.

Lemma store_ok_empty : store_ok empty_db.
Proof.
  repeat split; simpl; try by constructor. apply no_orphans_empty.
Qed.

Lemma reachable_ok d : reachable d -> store_ok d.
Proof.
  intros H. eapply store_ok_steps; eauto using reachable_steps, store_ok_empty.
Qed.

End StoreOk.

(** ** Aggregates *)

Section AggregateFacts.

Lemma valid_amount_cases x :
  valid_amount x ->
  (exists s, x = S754_zero s) \/ x = S754_infinity false
  \/ exists m e, x = S754_finite false m e.
Proof.
  intros [Hn Hl]. destruct x as [s|[]| |[] m e]; try done; eauto.
Qed.

Lemma signed_false_valid x : signed_result false x -> valid_amount x.
Proof. by intros [->|[->|(m & e & ->)]]. Qed.

Lemma fadd_valid x y :
  valid_amount x -> valid_amount y -> valid_amount (fadd x y).
Proof.
  intros Hx Hy.
  destruct (valid_amount_cases x Hx) as [[sx ->]|[->|(mx & ex & ->)]];
    destruct (valid_amount_cases y Hy) as [[sy ->]|[->|(my & ey & ->)]];
    try done.
  - by destruct sx, sy.
  - apply signed_false_valid. unfold fadd, SFadd. cbn [cond_Zopp].
    apply binary_round_signed.
Qed.

Lemma fold_fadd_valid xs acc :
  valid_amount acc -> Forall valid_amount xs ->
  valid_amount (fold_left fadd xs acc).
Proof.
  revert acc. induction xs as [|x xs IH]; intros acc Ha Hxs; simpl; [done|].
  apply Forall_cons in Hxs as [Hx Hxs]. apply IH; [|done].
  by apply fadd_valid.
Qed.


Lemma joined_amounts_valid d p :
  store_ok d -> Forall valid_amount (joined_amounts d p).
Proof.
  intros (_ & _ & Hes & _). unfold joined_amounts.
  apply Forall_fmap, Forall_forall. intros e He.
  apply list_elem_of_filter in He as [_ He].
  rewrite Forall_forall in Hes. apply (Hes e He).
Qed.

Lemma spent_is_sum d p :
  store_ok d ->
  r_spent (aggregate_row d p) = fold_left fadd (joined_amounts d p) fzero
  /\ valid_amount (r_spent (aggregate_row d p)).
Proof.
  intros Hd. pose proof (joined_amounts_valid d p Hd) as Hxs.
  assert (valid_amount (fold_left fadd (joined_amounts d p) fzero)) as Hv
    by (by apply fold_fadd_valid).
  unfold aggregate_row, sql_sum, sql_real. cbn [r_spent].
  destruct (joined_amounts d p) as [|x xs] eqn:E; [done|].
  destruct Hv as [Hn Hl]. by rewrite Hn.
Qed.




End AggregateFacts.




(** ** Two-decimal text and back *)

Section FormatFacts.

Lemma digit_facts c :
  is_digit c = true ->
  py_isspace c = false
  /\ Ascii.eqb c "-" = false /\ Ascii.eqb c "+" = false
  /\ Ascii.eqb c "." = false
  /\ Ascii.eqb (lower c) "i" = false /\ Ascii.eqb (lower c) "n" = false.
Proof.
  destruct c as [[] [] [] [] [] [] [] []]; vm_compute; intros H;
    try discriminate H; by repeat split.
Qed.

Lemma all_digits_uint u : all_digits (NilEmpty.string_of_uint u) = true.
Proof. induction u; simpl; by rewrite ?IHu. Qed.

Lemma dec_string_shape n :
  exists a t, dec_string n = String a t
              /\ is_digit a = true /\ all_digits t = true.
Proof.
  unfold dec_string, NilZero.string_of_uint.
  pose proof (all_digits_uint (N.to_uint (Z.to_N n))) as H.
  destruct (N.to_uint (Z.to_N n)); simpl in *;
    try (apply andb_true_iff in H as [H1 H2]); eauto.
Qed.

Lemma append_cons a s t : String a s +:+ t = String a (s +:+ t).
Proof. reflexivity. Qed.

Lemma rstrip_app s t : t <> "" -> rstrip t = t -> rstrip (s +:+ t) = s +:+ t.
Proof.
  intros Hne Ht. induction s as [|a s IH]; [exact Ht|].
  rewrite append_cons. cbn [rstrip]. rewrite IH. destruct (s +:+ t) eqn:E; [|done].
  destruct s; simpl in E; [by subst|done].
Qed.

Lemma digitpart_tail_digits ds rest :
  all_digits ds = true ->
  match rest with
  | EmptyString => True
  | String c _ => is_digit c = false /\ Ascii.eqb c "_" = false
  end ->
  digitpart_tail (ds +:+ rest) = (list_ascii_of_string ds, rest).
Proof.
  intros Hds Hrest. induction ds as [|c ds IH]; simpl.
  - destruct rest as [|c r]; [done|]. simpl.
    destruct Hrest as [-> ->]. done.
  - simpl in Hds. apply andb_true_iff in Hds as [Hc Hds].
    by rewrite Hc, (IH Hds).
Qed.

Lemma fold_digits_acc u acc :
  fold_left (fun a d => 10 * a + digit_val d)
    (list_ascii_of_string (NilEmpty.string_of_uint u)) (Zpos acc)
  = Zpos (Pos.of_uint_acc u acc).
Proof.
  revert acc. induction u as [|u IH|u IH|u IH|u IH|u IH|u IH|u IH|u IH|u IH
                              |u IH]; intros acc; [done|..];
    cbn [NilEmpty.string_of_uint list_ascii_of_string fold_left
         Pos.of_uint_acc]; rewrite <- IH; f_equal;
    match goal with
    | |- context [digit_val ?c] =>
        let v := eval vm_compute in (digit_val c) in
        change (digit_val c) with v
    end; lia.
Qed.

Lemma fold_digits_uint u :
  digits_value (list_ascii_of_string (NilEmpty.string_of_uint u))
  = Z.of_N (Pos.of_uint u).
Proof.
  unfold digits_value.
  induction u as [|u IH|u IH|u IH|u IH|u IH|u IH|u IH|u IH|u IH|u IH];
    [done|exact IH|..];
    cbn [NilEmpty.string_of_uint list_ascii_of_string fold_left Pos.of_uint];
    apply fold_digits_acc.
Qed.

Lemma fold_digits_zero_uint u :
  digits_value (list_ascii_of_string (NilZero.string_of_uint u))
  = Z.of_N (Pos.of_uint u).
Proof.
  destruct u; [done|..];
    match goal with
    | |- context [NilZero.string_of_uint ?d] => exact (fold_digits_uint d)
    end.
Qed.

(** Reading the decimal text of a number gives the number back. *)
Lemma digits_value_dec_string q :
  0 <= q -> digits_value (list_ascii_of_string (dec_string q)) = q.
Proof.
  intros Hq. unfold dec_string.
  rewrite fold_digits_zero_uint.
  change (Pos.of_uint ?u) with (N.of_uint u).
  rewrite DecimalN.Unsigned.of_to. lia.
Qed.

Lemma digit_val_char d : 0 <= d < 10 -> digit_val (digit_char d) = d.
Proof.
  intros H.
  assert (d = 0 \/ d = 1 \/ d = 2 \/ d = 3 \/ d = 4 \/ d = 5 \/ d = 6
          \/ d = 7 \/ d = 8 \/ d = 9) as Hd by lia.
  repeat destruct Hd as [->|Hd]; try subst d; done.
Qed.

Lemma digits_value_app2 ds c1 c2 :
  digits_value (ds ++ [c1; c2])
  = 100 * digits_value ds + 10 * digit_val c1 + digit_val c2.
Proof. unfold digits_value. rewrite fold_left_app. simpl. lia. Qed.

(** The text [f"{v:.2f}"] of a non-negative finite value is a decimal
    literal without sign or exponent, two digits after the point, that
    denotes that number of hundredths. *)
Lemma parse_literal_fixed2 n :
  exists ds c1 c2,
    strip (fixed2 n) = fixed2 n
    /\ parse_literal (fixed2 n) = Some (LDec false ds [c1; c2] 0)
    /\ (0 <= n -> digits_value (ds ++ [c1; c2]) = n).
Proof.
  assert (0 <= n ->
          forall a t, dec_string (n / 100) = String a t ->
            digits_value
              ((a :: list_ascii_of_string t)
                 ++ [digit_char (n / 10 mod 10); digit_char (n mod 10)])
            = n) as Hvalue.
  { intros Hn a t E. rewrite digits_value_app2.
    change (a :: list_ascii_of_string t)
      with (list_ascii_of_string (String a t)).
    rewrite <- E, digits_value_dec_string by (apply Z.div_pos; lia).
    rewrite !digit_val_char by (apply Z.mod_pos_bound; lia).
    pose proof (Z.div_mod n 10). pose proof (Z.div_mod (n / 10) 10).
    rewrite (Z.div_div n 10 10) in * by lia. change (10 * 10) with 100 in *.
    lia. }
  revert Hvalue.
  unfold fixed2.
  destruct (dec_string_shape (n / 100)) as (a & t & -> & Ha & Ht).
  intros Hvalue. specialize (fun Hn => Hvalue Hn a t eq_refl).
  pose proof (digit_char_mod_digit (n / 10)) as H1.
  pose proof (digit_char_mod_digit n) as H2.
  set (c1 := digit_char (n / 10 mod 10)) in *.
  set (c2 := digit_char (n mod 10)) in *.
  destruct (digit_facts a Ha) as (Hsp & Hm & Hp & Hdot & Hi & Hn).
  destruct (digit_facts c2 H2) as (Hsp2 & _).
  exists (a :: list_ascii_of_string t), c1, c2. split; [|split; [|done]].
  - unfold strip. rewrite append_cons, lstrip_nonspace by done.
    rewrite <- append_cons.
    apply (rstrip_app (String a t)); [done|]. simpl. by rewrite Hsp2.
  - unfold parse_literal. rewrite append_cons. cbn [opt_sign].
    rewrite Hm, Hp. cbn [lower_str String.eqb]. rewrite Hi, Hn.
    cbn [andb orb]. unfold parse_number. rewrite Hdot.
    cbn [digitpart]. rewrite Ha.
    rewrite (digitpart_tail_digits t _ Ht) by done.
    cbn [Ascii.eqb Bool.eqb digitpart digitpart_tail]. rewrite H1, H2.
    reflexivity.
Qed.

Lemma float_of_string_strip s : float_of_string (strip s) = float_of_string s.
Proof. unfold float_of_string. by rewrite strip_idemp. Qed.

Lemma parse_float_strip_inr s v :
  parse_float s = inr v -> parse_float (strip s) = inr v.
Proof.
  unfold parse_float. rewrite float_of_string_strip.
  destruct (float_of_string s) as [x|]; [|done]. by destruct (fltb x fzero).
Qed.

Lemma float_of_string_format x :
  valid_amount x ->
  exists v, float_of_string (format_2f x) = Some v /\ valid_amount v.
Proof.
  intros Hx.
  destruct (valid_amount_cases x Hx) as [[[] ->]|[->|(m & e & ->)]].
  - by exists (S754_zero true).
  - by exists (S754_zero false).
  - by exists (S754_infinity false).
  - change (format_2f (S754_finite false m e))
      with (fixed2 (hundredths m e)).
    unfold float_of_string.
    destruct (parse_literal_fixed2 (hundredths m e))
      as (ds & c1 & c2 & -> & -> & _).
    eexists. split; [reflexivity|].
    apply signed_false_valid, float_of_literal_signed.
Qed.

(** A stored amount survives the text round trip as [round2] of itself. *)
Lemma parse_float_format x :
  valid_amount x ->
  parse_float (strip (format_2f x)) = inr (round2 x)
  /\ valid_amount (round2 x).
Proof.
  intros Hx. destruct (float_of_string_format x Hx) as (v & Hv & Hvalid).
  unfold round2. rewrite Hv. cbn [default]. split; [|done].
  apply parse_float_strip_inr. unfold parse_float. rewrite Hv.
  destruct Hvalid as [_ Hl]. by rewrite Hl.
Qed.

Lemma round_half_even_div_nonneg n d :
  0 <= n -> 0 < d -> 0 <= round_half_even_div n d.
Proof.
  intros Hn Hd. unfold round_half_even_div.
  pose proof (Z.div_pos n d Hn Hd).
  destruct (2 * (n mod d) ?= d); [destruct (Z.even (n / d))|..]; lia.
Qed.

Lemma hundredths_nonneg m e : 0 <= hundredths m e.
Proof.
  unfold hundredths. destruct (0 <=? e) eqn:E.
  - assert (0 < 2 ^ e) by (apply Z.pow_pos_nonneg; lia). lia.
  - apply round_half_even_div_nonneg; [lia|].
    apply Z.pow_pos_nonneg; lia.
Qed.

(** What "rounded to two decimals" is: the value in hundredths, ties to
    even, then the nearest binary64 number. Zeros and infinity are
    fixed. *)
Lemma round2_cases x :
  valid_amount x ->
  match x with
  | S754_finite _ m e =>
      round2 x = float_of_decimal false (hundredths m e) (- 2)
  | _ => round2 x = x
  end.
Proof.
  intros Hx.
  destruct (valid_amount_cases x Hx) as [[[] ->]|[->|(m & e & ->)]];
    try done.
  unfold round2.
  change (format_2f (S754_finite false m e)) with (fixed2 (hundredths m e)).
  unfold float_of_string.
  destruct (parse_literal_fixed2 (hundredths m e))
    as (ds & c1 & c2 & -> & -> & Hv).
  cbn [fmap option_fmap option_map default float_of_literal].
  by rewrite (Hv (hundredths_nonneg m e)).
Qed.

End FormatFacts.

(** ** Importing exported rows *)

Section RoundTrip.







Lemma filter_all {A} (P : A -> Prop) `{!forall x, Decision (P x)} l :
  Forall P l -> filter P l = l.
Proof.
  induction 1 as [|x l Hx _ IH]; [done|].
  by rewrite filter_cons_True, IH.
Qed.

Lemma filter_none {A} (P : A -> Prop) `{!forall x, Decision (P x)} l :
  Forall (fun x => ~ P x) l -> filter P l = [].
Proof.
  induction 1 as [|x l Hx _ IH]; [done|].
  by rewrite filter_cons_False, IH.
Qed.

Lemma next_rowid_gt ids x : x ∈ ids -> x < next_rowid ids.
Proof.
  unfold next_rowid. induction ids as [|y ids IH]; simpl.
  - by intros ?%elem_of_nil.
  - intros [->|Hx]%elem_of_cons; [lia|]. specialize (IH Hx). lia.
Qed.


Section Extended.

(** A store [c'] that extends [c] by the project [P] and the expenses
    [new], all of them under [P]. *)
Context (c c' : db) (P : project) (new : list expense).
Hypothesis Hprojects : projects c' = (projects c ++ [P])%list.
Hypothesis Hexpenses : expenses c' = (expenses c ++ new)%list.
Hypothesis Hid : p_id P = next_rowid (p_id <$> projects c).
Hypothesis Hnew : Forall (fun e => e_project_id e = p_id P) new.
Hypothesis Hno : no_orphans c.
Hypothesis Hname : select_id_by_name c (p_name P) = None.

Lemma extended_fresh q : q ∈ projects c -> p_id q <> p_id P.
Proof.
  intros Hq. pose proof (next_rowid_gt (p_id <$> projects c) (p_id q)
                           (list_elem_of_fmap_2 _ _ _ Hq)). lia.
Qed.

Lemma extended_select_old n id :
  select_id_by_name c n = Some id -> select_id_by_name c' n = Some id.
Proof.
  unfold select_id_by_name. rewrite Hprojects.
  destruct (List.find _ (projects c)) as [q|] eqn:E; [|done].
  by rewrite (find_app_some _ _ _ _ E).
Qed.

Lemma extended_select_new : select_id_by_name c' (p_name P) = Some (p_id P).
Proof.
  revert Hname. unfold select_id_by_name. rewrite Hprojects.
  destruct (List.find _ (projects c)) as [q|] eqn:E; [done|]. intros _.
  rewrite (find_app_none _ _ _ E). simpl. by rewrite String.eqb_refl.
Qed.

Lemma extended_select_other n :
  n <> p_name P -> select_id_by_name c n = None ->
  select_id_by_name c' n = None.
Proof.
  intros Hn. unfold select_id_by_name. rewrite Hprojects.
  destruct (List.find _ (projects c)) as [q|] eqn:E; [done|]. intros _.
  rewrite (find_app_none _ _ _ E). simpl.
  destruct (String.eqb_spec (p_name P) n); [congruence|done].
Qed.

Lemma extended_expenses_old q :
  q ∈ projects c ->
  expenses_by_name c' (p_name q) = expenses_by_name c (p_name q).
Proof.
  intros Hq. unfold expenses_by_name.
  destruct (select_id_by_name_elem c q Hq) as [id Hsel].
  rewrite (extended_select_old _ _ Hsel), Hsel, Hexpenses.
  rewrite filter_app, (filter_none _ new), app_nil_r; [done|].
  apply select_id_by_name_Some in Hsel as (q' & Hq' & _ & <-).
  eapply Forall_impl; [exact Hnew|]. intros e He Heq.
  apply (extended_fresh q' Hq'). congruence.
Qed.

Lemma extended_expenses_new : expenses_by_name c' (p_name P) = new.
Proof.
  unfold expenses_by_name. rewrite extended_select_new, Hexpenses.
  rewrite filter_app, (filter_all _ new Hnew), (filter_none _ (expenses c)).
  - done.
  - apply Forall_forall. intros e He Heq.
    destruct (Hno e He) as (q & Hq & Hqid).
    apply (extended_fresh q Hq). congruence.
Qed.

Lemma extended_content :
  content c'
  = (content c ++ [(p_name P, p_planned_budget P, p_created_at P,
                    expense_view <$> new)])%list.
Proof.
  unfold content. rewrite Hprojects, fmap_app. f_equal.
  - apply Forall_fmap_ext, Forall_forall. intros q Hq.
    by rewrite (extended_expenses_old q Hq).
  - cbn [fmap list_fmap]. by rewrite extended_expenses_new.
Qed.

Lemma extended_no_orphans : no_orphans c'.
Proof.
  intros e. rewrite Hexpenses, Hprojects, elem_of_app. intros [He|He].
  - destruct (Hno e He) as (q & Hq & Hqid). exists q. split; [|done].
    apply elem_of_app. by left.
  - rewrite Forall_forall in Hnew. exists P. split; [|by rewrite (Hnew e He)].
    apply elem_of_app. right. by apply list_elem_of_singleton.
Qed.

End Extended.



End RoundTrip.

Section ExportFacts.

Lemma export_rows_blocks d : export_rows d = entries d ≫= block_rows.
Proof. unfold export_rows, entries. by rewrite list_fmap_bind. Qed.

Lemma content_entries d : content d = block_entry <$> entries d.
Proof. unfold content, entries. by rewrite <- list_fmap_compose. Qed.



End ExportFacts.




(** * Further properties of the store, the queries and the codec *)

(** ** Row ids *)

Section IdFacts.

Lemma foldr_max_init l a :
  0 <= a -> foldr Z.max a l = Z.max (foldr Z.max 0 l) a.
Proof. intros Ha. induction l as [|y l IH]; simpl; lia. Qed.

Lemma next_rowid_count n :
  next_rowid (Z.of_nat <$> seq 1 n) = Z.of_nat (S n).
Proof.
  unfold next_rowid. induction n as [|n IH]; [done|].
  rewrite seq_S, fmap_app, foldr_app. simpl.
  rewrite foldr_max_init by lia. lia.
Qed.

Lemma counted_snoc ids :
  counted ids -> counted (ids ++ [next_rowid ids]).
Proof.
  unfold counted. intros H. rewrite length_app. simpl.
  rewrite Nat.add_1_r, seq_S, fmap_app. simpl.
  rewrite H at 2. rewrite next_rowid_count, <- H at 1. done.
Qed.

Lemma ids_step c c' :
  store_step c c' ->
  counted (p_id <$> projects c) /\ counted (e_id <$> expenses c) ->
  counted (p_id <$> projects c') /\ counted (e_id <$> expenses c').
Proof.
  intros [c0 n b cr _ _ _ _ _|c0 pid a ds dt _ _ _ _ _] [Hp He]; simpl;
    rewrite fmap_app; split; try done; by apply counted_snoc.
Qed.

Lemma ids_steps c c' :
  rtc store_step c c' ->
  counted (p_id <$> projects c) /\ counted (e_id <$> expenses c) ->
  counted (p_id <$> projects c') /\ counted (e_id <$> expenses c').
Proof. induction 1; eauto using ids_step. Qed.

Lemma reachable_ids d :
  reachable d ->
  counted (p_id <$> projects d) /\ counted (e_id <$> expenses d).
Proof.
  intros H. eapply ids_steps; [by apply reachable_steps|]. by split.
Qed.

Lemma counted_NoDup ids : counted ids -> NoDup ids.
Proof.
  intros ->. apply NoDup_fmap_2; [apply Nat2Z.inj'|apply NoDup_seq].
Qed.

Lemma counted_positive ids x : counted ids -> x ∈ ids -> 1 <= x.
Proof.
  intros -> (n & -> & Hn)%list_elem_of_fmap.
  apply elem_of_seq in Hn. lia.
Qed.

End IdFacts.

(** X1: in every reachable store the project ids are 1, 2, ..., n in the
    order of the table, and so are the expense ids: an id is never reused
    and never skipped, also not after a failed request. *)
Theorem X1_ids_are_counted (d : db) :
  reachable d ->
  p_id <$> projects d = Z.of_nat <$> seq 1 (length (projects d))
  /\ e_id <$> expenses d = Z.of_nat <$> seq 1 (length (expenses d)).
Proof.
  intros [Hp He]%reachable_ids. unfold counted in *.
  rewrite !length_fmap in *. by split.
Qed.

Lemma X1_witness :
  p_id <$> projects roof_store
  = Z.of_nat <$> seq 1 (length (projects roof_store))
  /\ e_id <$> expenses roof_store
     = Z.of_nat <$> seq 1 (length (expenses roof_store)).
Proof.
  apply (X1_ids_are_counted roof_store).
  apply reach_import, reach_init.
Defined.

(** X2: what a reachable store holds. Project names are distinct, not
    empty and stripped; no planned_budget or amount is below zero or NaN;
    no description is empty; descriptions and dates are stripped. *)
Theorem X2_stored_values (d : db) :
  reachable d ->
  NoDup (p_name <$> projects d)
  /\ (forall p, p ∈ projects d ->
        p_name p <> "" /\ strip (p_name p) = p_name p
        /\ fltb (p_planned_budget p) fzero = false
        /\ is_nan (p_planned_budget p) = false
        /\ strip (p_created_at p) = p_created_at p)
  /\ (forall e, e ∈ expenses d ->
        fltb (e_amount e) fzero = false /\ is_nan (e_amount e) = false
        /\ e_description e <> ""
        /\ strip (e_description e) = e_description e
        /\ strip (e_expense_date e) = e_expense_date e).
Proof.
  intros (Hnd & Hps & Hes & _)%reachable_ok.
  rewrite Forall_forall in Hps. rewrite Forall_forall in Hes.
  split; [done|]. split.
  - intros p Hp. destruct (Hps p Hp) as (? & ? & [? ?] & ?). done.
  - intros e He. destruct (Hes e He) as ([? ?] & ? & ? & ?). done.
Qed.

Lemma X2_witness :
  NoDup (p_name <$> projects roof_store)
  /\ (forall p, p ∈ projects roof_store ->
        p_name p <> "" /\ strip (p_name p) = p_name p
        /\ fltb (p_planned_budget p) fzero = false
        /\ is_nan (p_planned_budget p) = false
        /\ strip (p_created_at p) = p_created_at p)
  /\ (forall e, e ∈ expenses roof_store ->
        fltb (e_amount e) fzero = false /\ is_nan (e_amount e) = false
        /\ e_description e <> ""
        /\ strip (e_description e) = e_description e
        /\ strip (e_expense_date e) = e_expense_date e).
Proof.
  apply (X2_stored_values roof_store).
  apply reach_import, reach_init.
Defined.

(** ** Nothing is updated or deleted *)

Section AppendOnly.

Lemma step_prefix c c' :
  store_step c c' ->
  projects c `prefix_of` projects c' /\ expenses c `prefix_of` expenses c'.
Proof.
  intros [c0 n b cr _ _ _ _ _|c0 pid a ds dt _ _ _ _ _]; simpl; split;
    try done; by apply prefix_app_r.
Qed.

Lemma steps_prefix c c' :
  rtc store_step c c' ->
  projects c `prefix_of` projects c' /\ expenses c `prefix_of` expenses c'.
Proof.
  induction 1 as [c|c c1 c2 H1 _ [IHp IHe]]; [done|].
  destruct (step_prefix _ _ H1) as [Hp He].
  split; by etrans.
Qed.

End AppendOnly.

(** X3: the store is append-only. After adding a project, adding an
    expense or importing rows, with or without an error, the rows that
    were in the two tables are still there, unchanged and in front. *)
Theorem X3_append_only (d : db) :
  (forall today f,
     projects d `prefix_of` projects (handle_add_project today f d).1
     /\ expenses d `prefix_of` expenses (handle_add_project today f d).1)
  /\ (forall today f,
        projects d `prefix_of` projects (handle_add_expense today f d).1
        /\ expenses d `prefix_of` expenses (handle_add_expense today f d).1)
  /\ (forall today rows,
        projects d `prefix_of` projects (import_rows today rows d).1
        /\ expenses d `prefix_of` expenses (import_rows today rows d).1).
Proof.
  repeat split; intros; apply steps_prefix;
    auto using handle_add_project_step, handle_add_expense_step,
      import_rows_step.
Qed.

(** ** The two form handlers *)

Section HandlerFacts.

Lemma insert_project_inl d name budget created_at e :
  insert_project d name budget created_at = inl e ->
  (is_nan budget = true
   /\ e = IntegrityError (NotNull "projects.planned_budget"))
  \/ (is_nan budget = false /\ is_Some (select_id_by_name d name)
      /\ e = IntegrityError (Unique "projects.name")).
Proof.
  unfold insert_project, sql_real. destruct (is_nan budget).
  - intros [= <-]. by left.
  - destruct (select_id_by_name d name) eqn:E; [|done].
    intros [= <-]. right. eauto.
Qed.

Lemma select_id_None d id :
  select_id d id = None <-> forall p, p ∈ projects d -> p_id p <> id.
Proof.
  unfold select_id. split.
  - intros H p Hp Heq.
    destruct (List.find _ (projects d)) eqn:E; [done|].
    apply list_elem_of_In in Hp.
    pose proof (find_none _ _ E p Hp) as Hf. simpl in Hf. lia.
  - intros H. destruct (List.find _ (projects d)) as [p|] eqn:E; [|done].
    apply find_some in E as [Hin Heq]. apply list_elem_of_In in Hin.
    destruct (H p Hin). lia.
Qed.

End HandlerFacts.


(** X5: when [handle_add_project] fails the store is untouched, and the
    error is, in this order of precedence: name required (empty name);
    the invalid-amount error of [parse_float]; project exists, which is
    reported when the name is taken and also when the budget is NaN. *)
Theorem X5_add_project_fails (today : date) (f : form) (d : db) (e : exn) :
  (handle_add_project today f d).2 = inl e ->
  (handle_add_project today f d).1 = d
  /\ ((form_name f = "" /\ e = ValueError ProjectNameRequired)
      \/ (form_name f <> ""
          /\ parse_float (form_planned_budget f) = inl e
          /\ InvalidAmountError e)
      \/ (form_name f <> "" /\ e = ValueError ProjectExists
          /\ exists b, parse_float (form_planned_budget f) = inr b
             /\ (is_nan b = true
                 \/ is_Some (select_id_by_name d (form_name f))))).
Proof.
  unfold handle_add_project.
  destruct (truthy (form_name f)) eqn:Hn; cbn [negb].
  - apply truthy_true in Hn.
    destruct (parse_float (form_planned_budget f)) as [e'|b] eqn:Hb.
    + intros [= <-]. split; [done|]. right. left.
      split; [done|]. split; [done|]. by apply parse_float_inl in Hb.
    + unfold with_conn.
      destruct (insert_project d _ b _) as [e'|d1] eqn:Hi; [|done].
      apply insert_project_inl in Hi as [[Hnan ->]|(Hnan & Hs & ->)];
        intros [= <-]; (split; [done|]); right; right; eauto 10.
  - apply truthy_false in Hn. intros [= <-]. split; [done|]. by left.
Qed.

Lemma X5_witness :
  (handle_add_project a_day roof_form roof_store).1 = roof_store.
Proof.
  refine (proj1 (X5_add_project_fails a_day roof_form roof_store
                   (ValueError ProjectExists) _)).
  by vm_compute.
Defined.


(** X7: when [handle_add_expense] fails the store is untouched. In a
    reachable store a form without a project_id field always fails: the
    default id 0 belongs to no project. *)
Theorem X7_add_expense_fails (today : date) (f : form) (d : db) :
  ((handle_add_expense today f d).2 <> inr tt ->
   (handle_add_expense today f d).1 = d)
  /\ (reachable d -> f !! "project_id" = None ->
      (handle_add_expense today f d).1 = d
      /\ exists e, (handle_add_expense today f d).2 = inl e
                   /\ (InvalidAmountError e
                       \/ e = ValueError ExpenseDescriptionRequired
                       \/ e = ValueError ProjectNotFound)).
Proof.
  split.
  - unfold handle_add_expense.
    destruct (int_of_string (form_project_id f)) as [pid|]; [|done].
    destruct (parse_float (form_amount f)) as [e|a]; [done|].
    destruct (truthy (form_description f)); cbn [negb]; [|done].
    unfold with_conn. destruct (select_id d pid); [|done].
    destruct (insert_expense d pid a _ _) as [e|d1]; [done|].
    simpl. by destruct 1.
  - intros Hr Hf. unfold handle_add_expense, form_project_id. rewrite Hf.
    change (int_of_string (default "0" None)) with (Some 0).
    destruct (parse_float (form_amount f)) as [e|a] eqn:Ha.
    { split; [done|]. exists e. split; [done|]. left.
      by apply parse_float_inl in Ha. }
    destruct (truthy (form_description f)); cbn [negb]; [|by eauto 10].
    unfold with_conn.
    assert (select_id d 0 = None) as ->.
    { apply select_id_None. intros p Hp Heq.
      destruct (reachable_ids d Hr) as [Hc _].
      pose proof (counted_positive _ (p_id p) Hc
                    (list_elem_of_fmap_2 _ _ _ Hp)). lia. }
    eauto 10.
Qed.

Lemma X7_witness :
  (handle_add_expense a_day no_id_form roof_store).1 = roof_store
  /\ exists e, (handle_add_expense a_day no_id_form roof_store).2 = inl e
               /\ (InvalidAmountError e
                   \/ e = ValueError ExpenseDescriptionRequired
                   \/ e = ValueError ProjectNotFound).
Proof.
  apply (X7_add_expense_fails a_day no_id_form roof_store).
  - apply reach_import, reach_init.
  - by vm_compute.
Defined.

(** ** Ordering of the query results *)

Section SortFacts.

Context {A : Type} (before : A -> A -> bool).
Hypothesis before_asym : forall a b, before a b = true -> before b a = false.
Hypothesis before_trans :
  forall a b c, before b a = false -> before c b = false ->
                before c a = false.

Lemma elem_of_insert_by x a l :
  x ∈ insert_by before a l <-> x = a \/ x ∈ l.
Proof.
  induction l as [|b l IH]; simpl.
  - rewrite list_elem_of_singleton, elem_of_nil. tauto.
  - destruct (before a b).
    + by rewrite elem_of_cons.
    + rewrite !elem_of_cons, IH. tauto.
Qed.

Lemma insert_by_perm a l : insert_by before a l ≡ₚ a :: l.
Proof.
  induction l as [|b l IH]; simpl; [done|].
  destruct (before a b); [done|]. rewrite IH. apply perm_swap.
Qed.

Lemma sort_by_perm l : sort_by before l ≡ₚ l.
Proof.
  induction l as [|a l IH]; simpl; [done|].
  by rewrite insert_by_perm, IH.
Qed.

Lemma insert_by_in_order a l :
  in_order before l -> in_order before (insert_by before a l).
Proof.
  unfold in_order. induction 1 as [|b l Hl IH Hb]; simpl.
  - repeat constructor.
  - destruct (before a b) eqn:E.
    + constructor; [by constructor|]. constructor; [by apply before_asym|].
      eapply Forall_impl; [exact Hb|]. intros y Hy. simpl in *.
      eapply before_trans; [|exact Hy]. by apply before_asym.
    + constructor; [done|]. apply Forall_forall. intros y Hy.
      apply elem_of_insert_by in Hy as [->|Hy]; [done|].
      rewrite Forall_forall in Hb. by apply Hb.
Qed.

Lemma sort_by_in_order l : in_order before (sort_by before l).
Proof.
  induction l as [|a l IH]; simpl; [constructor|].
  by apply insert_by_in_order.
Qed.

End SortFacts.

Section KeyOrder.

Lemma ascii_compare_N a b :
  Ascii.compare a b = (N_of_ascii a ?= N_of_ascii b)%N.
Proof. reflexivity. Qed.

Lemma string_compare_lt_trans a b c :
  String.compare a b = Lt -> String.compare b c = Lt ->
  String.compare a c = Lt.
Proof.
  revert b c. induction a as [|x a IH]; intros [|y b] [|z c]; simpl;
    try done.
  rewrite !ascii_compare_N.
  destruct (N.compare_spec (N_of_ascii x) (N_of_ascii y)) as [Exy|Hxy|Hxy];
    destruct (N.compare_spec (N_of_ascii y) (N_of_ascii z)) as [Eyz|Hyz|Hyz];
    try done; intros H1 H2.
  - rewrite Exy, Eyz, N.compare_refl. by eapply IH.
  - rewrite Exy. by apply N.compare_lt_iff in Hyz as ->.
  - rewrite <- Eyz. by apply N.compare_lt_iff in Hxy as ->.
  - assert (N_of_ascii x < N_of_ascii z)%N as Hxz by lia.
    by apply N.compare_lt_iff in Hxz as ->.
Qed.

Lemma string_compare_gt a b :
  String.compare a b = Gt <-> String.compare b a = Lt.
Proof.
  rewrite (String.compare_antisym b a).
  destruct (String.compare a b); simpl; split; congruence.
Qed.

Lemma string_compare_refl a : String.compare a a = Eq.
Proof.
  pose proof (String.compare_antisym a a) as H.
  destruct (String.compare a a); simpl in H; congruence.
Qed.

(** [desc_before b a = false]: [a] may stand before [b]. *)
Lemma desc_before_false a b :
  desc_before b a = false <->
  String.compare b.1 a.1 = Lt \/ (b.1 = a.1 /\ b.2 <= a.2).
Proof.
  unfold desc_before. destruct (String.compare b.1 a.1) eqn:E.
  - apply String.compare_eq_iff in E. rewrite Z.ltb_ge.
    split; [by right|]. intros [?|[_ ?]]; done.
  - split; [by left|done].
  - split; [done|]. intros [?|[Heq _]]; [done|].
    rewrite Heq, string_compare_refl in E. done.
Qed.

Lemma desc_before_asym a b :
  desc_before a b = true -> desc_before b a = false.
Proof.
  intros H. apply desc_before_false. unfold desc_before in H.
  destruct (String.compare a.1 b.1) eqn:E; [| done |].
  - apply String.compare_eq_iff in E. apply Z.ltb_lt in H. right.
    split; [done|lia].
  - left. by apply string_compare_gt.
Qed.

Lemma desc_before_trans a b c :
  desc_before b a = false -> desc_before c b = false ->
  desc_before c a = false.
Proof.
  rewrite !desc_before_false.
  intros [Hba|[Eba Hba]] [Hcb|[Ecb Hcb]].
  - left. by eapply string_compare_lt_trans.
  - left. by rewrite Ecb.
  - left. by rewrite <- Eba.
  - right. split; [congruence|lia].
Qed.

Lemma order_rows_sort_by l : order_rows l = sort_by row_before l.
Proof.
  unfold order_rows, sort_by. induction l as [|a l IH]; simpl; [done|].
  rewrite IH. generalize (foldr (insert_by row_before) [] l) as k.
  induction k as [|b k IHk]; simpl; [done|]. by rewrite IHk.
Qed.

Lemma row_before_key a b :
  row_before a b = desc_before (r_created_at a, r_id a) (r_created_at b, r_id b).
Proof. reflexivity. Qed.

Lemma expense_before_key a b :
  expense_before a b
  = desc_before (x_expense_date a, x_id a) (x_expense_date b, x_id b).
Proof. reflexivity. Qed.

Lemma query_projects_in_order d : in_order row_before (query_projects d).
Proof.
  unfold query_projects. rewrite order_rows_sort_by.
  apply sort_by_in_order.
  - intros a b. rewrite !row_before_key. apply desc_before_asym.
  - intros a b c. rewrite !row_before_key. apply desc_before_trans.
Qed.

Lemma query_expenses_in_order d pid :
  in_order expense_before (query_expenses d pid).
Proof.
  unfold query_expenses. apply sort_by_in_order.
  - intros a b. rewrite !expense_before_key. apply desc_before_asym.
  - intros a b c. rewrite !expense_before_key. apply desc_before_trans.
Qed.

End KeyOrder.

Section QueryFacts.

Lemma strict_order {A} (key : A -> string * Z) l :
  StronglySorted (fun a b => desc_before (key b) (key a) = false) l ->
  NoDup ((fun a => (key a).2) <$> l) ->
  StronglySorted
    (fun a b => String.compare (key b).1 (key a).1 = Lt
                \/ ((key b).1 = (key a).1 /\ (key b).2 < (key a).2)) l.
Proof.
  induction 1 as [|a l Hl IH Ha]; intros Hnd; [constructor|].
  rewrite fmap_cons in Hnd. apply NoDup_cons in Hnd as [Hna Hnd].
  constructor; [by apply IH|].
  apply Forall_forall. intros b Hb. rewrite Forall_forall in Ha.
  destruct (proj1 (desc_before_false _ _) (Ha b Hb)) as [?|[Heq Hle]];
    [by left|right]. split; [done|].
  assert ((key b).2 <> (key a).2); [|lia].
  intros E. apply Hna. rewrite <- E.
  by apply (list_elem_of_fmap_2 (fun a => (key a).2)).
Qed.


Lemma NoDup_fmap_filter {A B} (f : A -> B) (P : A -> Prop)
    `{!forall x, Decision (P x)} l :
  NoDup (f <$> l) -> NoDup (f <$> filter P l).
Proof.
  induction l as [|x l IH]; [done|]. rewrite fmap_cons, NoDup_cons.
  intros [Hx Hl]. rewrite filter_cons.
  destruct (decide (P x)); [|by apply IH].
  rewrite fmap_cons. apply NoDup_cons. split; [|by apply IH].
  intros (y & Hy & [_ Hin]%list_elem_of_filter)%list_elem_of_fmap.
  apply Hx. rewrite Hy. by apply list_elem_of_fmap_2.
Qed.



Lemma query_projects_perm d :
  query_projects d ≡ₚ aggregate_row d <$> projects d.
Proof.
  unfold query_projects. rewrite order_rows_sort_by. apply sort_by_perm.
Qed.

Lemma query_expenses_perm d pid :
  query_expenses d pid
  ≡ₚ expense_row_of <$> filter (fun e => e_project_id e = pid) (expenses d).
Proof. apply sort_by_perm. Qed.

Lemma no_project_no_expense d pid :
  no_orphans d -> (forall p, p ∈ projects d -> p_id p <> pid) ->
  filter (fun e => e_project_id e = pid) (expenses d) = [].
Proof.
  intros Hno Hnone. apply filter_none, Forall_forall. intros e He Heq.
  destruct (Hno e He) as (p & Hp & Hid). apply (Hnone p Hp). congruence.
Qed.

End QueryFacts.


(** X11: [query_projects] returns one row per project, and in a reachable
    store the rows stand in strictly descending order of created_at, rows
    with the same created_at in strictly descending order of id. *)
Theorem X11_query_projects_order (d : db) :
  reachable d ->
  length (query_projects d) = length (projects d)
  /\ StronglySorted
       (fun a b =>
          String.compare (r_created_at b) (r_created_at a) = Lt
          \/ (r_created_at b = r_created_at a /\ r_id b < r_id a))
       (query_projects d).
Proof.
  intros Hr. split.
  - by rewrite query_projects_perm, length_fmap.
  - apply (strict_order (fun r => (r_created_at r, r_id r))).
    + apply query_projects_in_order.
    + rewrite query_projects_perm, <- list_fmap_compose.
      destruct (reachable_ids d Hr) as [Hc _]. by apply counted_NoDup in Hc.
Qed.

Lemma X11_witness :
  length (query_projects roof_store) = length (projects roof_store)
  /\ StronglySorted
       (fun a b =>
          String.compare (r_created_at b) (r_created_at a) = Lt
          \/ (r_created_at b = r_created_at a /\ r_id b < r_id a))
       (query_projects roof_store).
Proof.
  apply (X11_query_projects_order roof_store).
  apply reach_import, reach_init.
Defined.

(** X12: in a reachable store [query_expenses] returns exactly the
    expenses stored under the given project id, each once, in strictly
    descending order of expense_date and then of id; for an id that
    belongs to no project the list is empty. *)
Theorem X12_query_expenses (d : db) (pid : Z) :
  reachable d ->
  (forall x, x ∈ query_expenses d pid <->
             exists e, e ∈ expenses d /\ e_project_id e = pid
                       /\ x = expense_row_of e)
  /\ length (query_expenses d pid)
     = length (filter (fun e => e_project_id e = pid) (expenses d))
  /\ StronglySorted
       (fun a b =>
          String.compare (x_expense_date b) (x_expense_date a) = Lt
          \/ (x_expense_date b = x_expense_date a /\ x_id b < x_id a))
       (query_expenses d pid)
  /\ ((forall p, p ∈ projects d -> p_id p <> pid) ->
      query_expenses d pid = []).
Proof.
  intros Hr. split; [|split; [|split]].
  - intros x. rewrite query_expenses_perm, list_elem_of_fmap.
    split.
    + intros (e & -> & [Hpid He]%list_elem_of_filter). eauto.
    + intros (e & He & Hpid & ->). exists e. split; [done|].
      by apply list_elem_of_filter.
  - by rewrite query_expenses_perm, length_fmap.
  - apply (strict_order (fun x => (x_expense_date x, x_id x))).
    + apply query_expenses_in_order.
    + rewrite query_expenses_perm, <- list_fmap_compose.
      destruct (reachable_ids d Hr) as [_ Hc]. apply counted_NoDup in Hc.
      by apply (NoDup_fmap_filter e_id).
  - intros Hnone. unfold query_expenses.
    rewrite no_project_no_expense; [done| |done].
    by apply reachable_ok in Hr as (_ & _ & _ & ?).
Qed.

Lemma X12_witness :
  (forall x, x ∈ query_expenses roof_store 1 <->
             exists e, e ∈ expenses roof_store /\ e_project_id e = 1
                       /\ x = expense_row_of e)
  /\ length (query_expenses roof_store 1)
     = length (filter (fun e => e_project_id e = 1) (expenses roof_store))
  /\ StronglySorted
       (fun a b =>
          String.compare (x_expense_date b) (x_expense_date a) = Lt
          \/ (x_expense_date b = x_expense_date a /\ x_id b < x_id a))
       (query_expenses roof_store 1)
  /\ ((forall p, p ∈ projects roof_store -> p_id p <> 1) ->
      query_expenses roof_store 1 = []).
Proof.
  apply (X12_query_expenses roof_store 1).
  apply reach_import, reach_init.
Defined.

(** ** What an insertion does to the aggregates *)

Section InsertThenQuery.




End InsertThenQuery.





(** ** More on [import_rows] *)

Section ImportCounts.

Lemma import_budget_shift today c pa r :
  import_budget today c pa r =
  match import_budget today c 0 r with
  | inl e => inl e
  | inr (c', p) => inr (c', (pa + p)%nat)
  end.
Proof.
  unfold import_budget.
  destruct (truthy (row_budget_text r)); [|by rewrite Nat.add_0_r].
  destruct (parse_float (row_budget_text r)); [done|].
  destruct (select_id_by_name c (row_name r)); [by rewrite Nat.add_0_r|].
  destruct (insert_project c _ _ _); [done|]. by rewrite Nat.add_1_r.
Qed.

Lemma import_expense_shift today c ea r :
  import_expense today c ea r =
  match import_expense today c 0 r with
  | inl e => inl e
  | inr (c', n) => inr (c', (ea + n)%nat)
  end.
Proof.
  unfold import_expense.
  destruct (truthy (row_expense_amount r)); [|by rewrite Nat.add_0_r].
  destruct (parse_float (row_expense_amount r)); [done|].
  destruct (select_id_by_name c (row_name r)); [|by rewrite Nat.add_0_r].
  destruct (insert_expense c _ _ _ _); [done|]. by rewrite Nat.add_1_r.
Qed.

Lemma import_row_shift today c pa ea r :
  import_row today (c, pa, ea) r =
  match import_row today (c, 0%nat, 0%nat) r with
  | inl e => inl e
  | inr (c', p, n) => inr (c', (pa + p)%nat, (ea + n)%nat)
  end.
Proof.
  unfold import_row.
  destruct (truthy (row_name r)); cbn [negb]; [|by rewrite !Nat.add_0_r].
  rewrite (import_budget_shift today c pa).
  destruct (import_budget today c 0 r) as [e|[c1 p]]; [done|].
  rewrite (import_expense_shift today c1 ea).
  by destruct (import_expense today c1 0 r) as [e|[c2 n]].
Qed.

Lemma import_loop_shift today rows c pa ea :
  import_loop today rows (c, pa, ea) =
  match import_loop today rows (c, 0%nat, 0%nat) with
  | inl e => inl e
  | inr (c', p, n) => inr (c', (pa + p)%nat, (ea + n)%nat)
  end.
Proof.
  revert c pa ea. induction rows as [|r rows IH]; intros c pa ea;
    cbn [import_loop]; [by rewrite !Nat.add_0_r|].
  rewrite (import_row_shift today c pa ea).
  destruct (import_row today (c, 0%nat, 0%nat) r) as [e|[[c1 p1] n1]];
    [done|].
  rewrite (IH c1 (pa + p1)%nat (ea + n1)%nat), (IH c1 p1 n1).
  destruct (import_loop today rows (c1, 0%nat, 0%nat)) as [e|[[c2 p2] n2]];
    [done|]. by rewrite !Nat.add_assoc.
Qed.

Lemma import_budget_lengths today c pa r c' pa' :
  import_budget today c pa r = inr (c', pa') ->
  expenses c' = expenses c
  /\ (length (projects c') + pa = length (projects c) + pa')%nat.
Proof.
  unfold import_budget.
  destruct (truthy (row_budget_text r)); [|by intros [= <- <-]].
  destruct (parse_float (row_budget_text r)); [done|].
  destruct (select_id_by_name c (row_name r)); [by intros [= <- <-]|].
  destruct (insert_project c _ _ _) as [e|c1] eqn:Hi; [done|].
  intros [= <- <-]. apply insert_project_inr in Hi as (-> & _).
  simpl. rewrite length_app. simpl. split; [done|lia].
Qed.

Lemma import_expense_lengths today c ea r c' ea' :
  import_expense today c ea r = inr (c', ea') ->
  projects c' = projects c
  /\ (length (expenses c') + ea = length (expenses c) + ea')%nat.
Proof.
  unfold import_expense.
  destruct (truthy (row_expense_amount r)); [|by intros [= <- <-]].
  destruct (parse_float (row_expense_amount r)); [done|].
  destruct (select_id_by_name c (row_name r)); [|by intros [= <- <-]].
  destruct (insert_expense c _ _ _ _) as [e|c1] eqn:Hi; [done|].
  intros [= <- <-]. apply insert_expense_inr in Hi as (-> & _).
  simpl. rewrite length_app. simpl. split; [done|lia].
Qed.

Lemma import_row_lengths today c pa ea r c' pa' ea' :
  import_row today (c, pa, ea) r = inr (c', pa', ea') ->
  (length (projects c') + pa = length (projects c) + pa')%nat
  /\ (length (expenses c') + ea = length (expenses c) + ea')%nat.
Proof.
  unfold import_row.
  destruct (truthy (row_name r)); cbn [negb]; [|by intros [= <- <- <-]].
  destruct (import_budget today c pa r) as [e|[c1 pa1]] eqn:Hb; [done|].
  destruct (import_expense today c1 ea r) as [e|[c2 ea2]] eqn:He; [done|].
  intros [= <- <- <-].
  apply import_budget_lengths in Hb as [Hb1 Hb2].
  apply import_expense_lengths in He as [He1 He2].
  rewrite He1, <- Hb1. done.
Qed.

Lemma import_loop_lengths today rows c pa ea c' pa' ea' :
  import_loop today rows (c, pa, ea) = inr (c', pa', ea') ->
  (length (projects c') + pa = length (projects c) + pa')%nat
  /\ (length (expenses c') + ea = length (expenses c) + ea')%nat.
Proof.
  revert c pa ea. induction rows as [|r rows IH]; intros c pa ea;
    cbn [import_loop]; [by intros [= <- <- <-]|].
  destruct (import_row today (c, pa, ea) r) as [e|[[c1 pa1] ea1]] eqn:Hr;
    [done|].
  intros [H1 H2]%IH. apply import_row_lengths in Hr as [H3 H4]. lia.
Qed.

End ImportCounts.

(** X13: the counts that [import_rows] returns are the growth of the two
    tables: the number of projects and the number of expenses it added. *)
Theorem X13_import_counts today (rows : list row) (d d' : db) (pa ea : nat) :
  import_rows today rows d = (d', inr (pa, ea)) ->
  length (projects d') = (length (projects d) + pa)%nat
  /\ length (expenses d') = (length (expenses d) + ea)%nat.
Proof.
  unfold import_rows, with_conn.
  destruct (import_loop today rows _) as [e|[[c p] n]] eqn:Hl; [done|].
  intros [= <- <- <-]. apply import_loop_lengths in Hl. lia.
Qed.

Lemma X13_witness :
  length (projects roof_store) = (length (projects empty_db) + 1)%nat
  /\ length (expenses roof_store) = (length (expenses empty_db) + 1)%nat.
Proof.
  apply (X13_import_counts a_day roof_rows empty_db roof_store 1 1).
  by vm_compute.
Defined.

(** X14: importing [rows1 ++ rows2] in one call, when [rows1] alone is
    imported without error, is importing [rows1] and then [rows2]: the
    same store and the sums of the counts. When [rows2] then raises, the
    one call leaves the store as it was before [rows1]. *)
Theorem X14_import_append today (rows1 rows2 : list row) (d d1 : db)
    (p1 e1 : nat) :
  import_rows today rows1 d = (d1, inr (p1, e1)) ->
  import_rows today (rows1 ++ rows2) d =
  match import_rows today rows2 d1 with
  | (d2, inr (p2, e2)) => (d2, inr ((p1 + p2)%nat, (e1 + e2)%nat))
  | (_, inl e) => (d, inl e)
  end.
Proof.
  unfold import_rows, with_conn. rewrite import_loop_app.
  destruct (import_loop today rows1 _) as [e|[[c p] n]] eqn:Hl; [done|].
  intros [= <- <- <-]. rewrite (import_loop_shift today rows2 c p n).
  by destruct (import_loop today rows2 (c, 0%nat, 0%nat))
    as [e|[[c2 p2] n2]].
Qed.

Lemma X14_witness :
  import_rows a_day (take 1 roof_rows ++ drop 1 roof_rows) empty_db =
  match import_rows a_day (drop 1 roof_rows)
          (import_rows a_day (take 1 roof_rows) empty_db).1 with
  | (d2, inr (p2, e2)) => (d2, inr ((1 + p2)%nat, (0 + e2)%nat))
  | (_, inl e) => (empty_db, inl e)
  end.
Proof.
  apply (X14_import_append a_day (take 1 roof_rows) (drop 1 roof_rows)
           empty_db _ 1 0).
  by vm_compute.
Defined.

(** X15: a row whose Project field is missing, empty or white space is
    skipped before anything else is read: wherever it stands in the
    batch, and whatever its other fields hold, the import goes as if the
    row were not there. *)
Theorem X15_blank_name_skipped today (r : row) (pre post : list row)
    (d : db) :
  row_name r = "" ->
  import_rows today (pre ++ r :: post) d = import_rows today (pre ++ post) d.
Proof.
  intros Hn. unfold import_rows, with_conn. rewrite !import_loop_app.
  destruct (import_loop today pre _) as [e|[[c p] n]]; [done|].
  cbn [import_loop]. unfold import_row at 1. by rewrite Hn.
Qed.

Lemma X15_witness :
  import_rows a_day (take 1 roof_rows ++ nameless_row :: drop 1 roof_rows)
    empty_db
  = import_rows a_day (take 1 roof_rows ++ drop 1 roof_rows) empty_db.
Proof.
  apply (X15_blank_name_skipped a_day nameless_row). by vm_compute.
Defined.

Section ImportOutcome.

Lemma parse_float_nan s v :
  parse_float s = inr v -> is_nan v = true -> nan_text s.
Proof.
  intros (l & Hl & -> & _)%parse_float_inr Hnan. unfold nan_text.
  destruct l as [|neg|neg ds fs e]; [done|done|].
  by destruct (float_of_literal_signed neg ds fs e)
    as [E|[E|(m & x & E)]]; rewrite E in Hnan.
Qed.

Lemma import_budget_error today c pa r e :
  import_budget today c pa r = inl e ->
  InvalidAmountError e
  \/ (e = IntegrityError (NotNull "projects.planned_budget")
      /\ nan_text (row_budget_text r)).
Proof.
  unfold import_budget. destruct (truthy (row_budget_text r)); [|done].
  destruct (parse_float (row_budget_text r)) as [e'|b] eqn:Hb.
  { intros [= <-]. left. by apply parse_float_inl in Hb. }
  destruct (select_id_by_name c (row_name r)) eqn:Hs; [done|].
  destruct (insert_project c _ b _) as [e'|c1] eqn:Hi; [|done].
  intros [= <-]. right.
  apply insert_project_inl in Hi as [[Hnan ->]|(_ & [id Hid] & _)].
  - split; [done|]. by eapply parse_float_nan.
  - congruence.
Qed.

Lemma import_expense_error today c ea r e :
  import_expense today c ea r = inl e ->
  InvalidAmountError e
  \/ (e = IntegrityError (NotNull "expenses.amount")
      /\ nan_text (row_expense_amount r)).
Proof.
  unfold import_expense. destruct (truthy (row_expense_amount r)); [|done].
  destruct (parse_float (row_expense_amount r)) as [e'|a] eqn:Ha.
  { intros [= <-]. left. by apply parse_float_inl in Ha. }
  destruct (select_id_by_name c (row_name r)); [|done].
  unfold insert_expense, sql_real.
  destruct (is_nan a) eqn:Hnan; [|done].
  intros [= <-]. right. split; [done|]. by eapply parse_float_nan.
Qed.

Lemma import_row_error today st r e :
  import_row today st r = inl e ->
  InvalidAmountError e
  \/ (e = IntegrityError (NotNull "projects.planned_budget")
      /\ nan_text (row_budget_text r))
  \/ (e = IntegrityError (NotNull "expenses.amount")
      /\ nan_text (row_expense_amount r)).
Proof.
  destruct st as [[c pa] ea]. unfold import_row.
  destruct (truthy (row_name r)); cbn [negb]; [|done].
  destruct (import_budget today c pa r) as [e'|[c1 pa1]] eqn:Hb.
  { intros [= <-]. apply import_budget_error in Hb. tauto. }
  destruct (import_expense today c1 ea r) as [e'|[c2 ea2]] eqn:He; [|done].
  intros [= <-]. apply import_expense_error in He. tauto.
Qed.

Lemma steps_select c c' n id :
  rtc store_step c c' ->
  select_id_by_name c n = Some id -> select_id_by_name c' n = Some id.
Proof.
  intros [[k Hk] _]%steps_prefix. unfold select_id_by_name. rewrite Hk.
  destruct (List.find _ (projects c)) as [q|] eqn:E; [|done].
  by rewrite (find_app_some _ _ _ _ E).
Qed.

Lemma import_row_declares today c pa ea r c' pa' ea' :
  import_row today (c, pa, ea) r = inr (c', pa', ea') ->
  row_name r <> "" -> row_budget_text r <> "" ->
  is_Some (select_id_by_name c' (row_name r)).
Proof.
  intros Hrun Hn Hb. revert Hrun. unfold import_row.
  apply truthy_true in Hn, Hb. rewrite Hn. cbn [negb].
  destruct (import_budget today c pa r) as [e|[c1 pa1]] eqn:Hbud; [done|].
  destruct (import_expense today c1 ea r) as [e|[c2 ea2]] eqn:Hexp; [done|].
  intros [= <- _ _].
  assert (is_Some (select_id_by_name c1 (row_name r))) as [id Hid].
  { revert Hbud. unfold import_budget. rewrite Hb.
    destruct (parse_float (row_budget_text r)); [done|].
    destruct (select_id_by_name c (row_name r)) eqn:Hs.
    - intros [= <- _]. by rewrite Hs.
    - destruct (insert_project c _ _ _) as [e|c0] eqn:Hi; [done|].
      intros [= <- _]. apply insert_project_inr in Hi as (-> & _).
      rewrite (select_with_project_same _ _ _ _ Hs). eauto. }
  exists id. eapply steps_select; [|exact Hid].
  by eapply import_expense_step.
Qed.

End ImportOutcome.

(** X16: a row that declares a budget for a project name that is already
    in the store, and carries no expense, changes nothing and counts
    nothing: the stored budget and date stay, whatever the row says. *)
Theorem X16_existing_budget_ignored today (r : row) (rows : list row)
    (d : db) (id : Z) (b : float) :
  select_id_by_name d (row_name r) = Some id ->
  parse_float (row_budget_text r) = inr b ->
  row_expense_amount r = "" ->
  import_rows today (r :: rows) d = import_rows today rows d.
Proof.
  intros Hs Hb Ha. unfold import_rows, with_conn. cbn [import_loop].
  assert (import_row today (d, 0%nat, 0%nat) r = inr (d, 0%nat, 0%nat)) as ->;
    [|done].
  unfold import_row. destruct (truthy (row_name r)); cbn [negb]; [|done].
  unfold import_budget, import_expense.
  by rewrite (parse_float_truthy _ _ Hb), Hb, Hs, Ha.
Qed.

Lemma X16_witness :
  import_rows a_day
    (list_to_map [("Project", "Roof"); ("Budget", "5")] :: drop 1 roof_rows)
    roof_store
  = import_rows a_day (drop 1 roof_rows) roof_store.
Proof.
  apply (X16_existing_budget_ignored a_day _ _ roof_store 1
           (S754_finite false 5629499534213120 (-50))); by vm_compute.
Defined.

(** X17: after [import_rows] returns counts, every row of the batch with
    a project name and a budget has a project of that name in the store,
    created by the batch or found there. *)
Theorem X17_declared_projects_exist today (rows : list row) (d d' : db)
    (counts : nat * nat) :
  import_rows today rows d = (d', inr counts) ->
  forall r, r ∈ rows -> row_name r <> "" -> row_budget_text r <> "" ->
    exists p, p ∈ projects d' /\ p_name p = row_name r.
Proof.
  unfold import_rows, with_conn.
  destruct (import_loop today rows _) as [e|[[c p] n]] eqn:Hl; [done|].
  intros [= <- _] r Hr Hn Hb.
  assert (is_Some (select_id_by_name c (row_name r))) as [id Hid].
  { revert Hl. generalize 0%nat at 1 as pa. generalize 0%nat at 1 as ea.
    revert d. induction rows as [|r0 rows IH]; intros d ea pa;
      [by apply elem_of_nil in Hr|].
    cbn [import_loop].
    destruct (import_row today (d, pa, ea) r0) as [e|[[c1 p1] n1]] eqn:Hrow;
      [done|]. intros Hrest.
    apply elem_of_cons in Hr as [->|Hr]; [|by eapply IH].
    destruct (import_row_declares _ _ _ _ _ _ _ _ Hrow Hn Hb) as [id Hid].
    exists id. eapply steps_select; [|exact Hid].
    by eapply import_loop_step. }
  apply select_id_by_name_Some in Hid as (q & Hq & Hname & _). eauto.
Qed.

Lemma X17_witness :
  exists p, p ∈ projects roof_store /\ p_name p = "Roof".
Proof.
  refine (X17_declared_projects_exist a_day roof_rows empty_db roof_store
            (1%nat, 1%nat) _
            (list_to_map [("Project", "Roof"); ("Budget", "1000");
                          ("CreatedAt", "2024-01-01")]) _ _ _).
  - by vm_compute.
  - apply list_elem_of_In. vm_compute. by left.
  - by vm_compute.
  - by vm_compute.
Defined.

(** X18: the only exceptions [import_rows] raises are the invalid-amount
    error of [parse_float] and the NOT NULL violation of a Budget or an
    ExpenseAmount that reads [nan]; it never violates the uniqueness of
    project names. *)
Theorem X18_import_errors today (rows : list row) (d : db) (e : exn) :
  (import_rows today rows d).2 = inl e ->
  InvalidAmountError e
  \/ (e = IntegrityError (NotNull "projects.planned_budget")
      /\ exists r, r ∈ rows /\ nan_text (row_budget_text r))
  \/ (e = IntegrityError (NotNull "expenses.amount")
      /\ exists r, r ∈ rows /\ nan_text (row_expense_amount r)).
Proof.
  unfold import_rows, with_conn.
  destruct (import_loop today rows _) as [e'|[[c p] n]] eqn:Hl; [|done].
  intros [= <-]. revert Hl.
  generalize (d, 0%nat, 0%nat) as st.
  induction rows as [|r rows IH]; intros st; cbn [import_loop]; [done|].
  destruct (import_row today st r) as [e0|st1] eqn:Hrow.
  - intros [= <-].
    destruct (import_row_error _ _ _ _ Hrow) as [?|[[? ?]|[? ?]]];
      [by left|right; left|right; right];
      (split; [done|]); exists r; (split; [by left|done]).
  - intros H. destruct (IH _ H) as [?|[[? (r0 & ? & ?)]|[? (r0 & ? & ?)]]];
      [by left|right; left|right; right];
      (split; [done|]); exists r0; (split; [by right|done]).
Qed.

Lemma X18_witness :
  InvalidAmountError (ValueError NegativeValue)
  \/ (ValueError NegativeValue
      = IntegrityError (NotNull "projects.planned_budget")
      /\ exists r, r ∈ rows_with_bad_budget /\ nan_text (row_budget_text r))
  \/ (ValueError NegativeValue = IntegrityError (NotNull "expenses.amount")
      /\ exists r, r ∈ rows_with_bad_budget
                   /\ nan_text (row_expense_amount r)).
Proof.
  apply (X18_import_errors a_day rows_with_bad_budget empty_db).
  by vm_compute.
Defined.

(** ** The rows of [export_rows] *)

Section ExportShape.

Lemma find_by_name l (p : project) :
  NoDup (p_name <$> l) -> p ∈ l ->
  List.find (fun q => String.eqb (p_name q) (p_name p)) l = Some p.
Proof.
  induction l as [|y l IH]; intros Hnd Hx; [by apply elem_of_nil in Hx|].
  rewrite fmap_cons in Hnd. apply NoDup_cons in Hnd as [Hy Hnd]. simpl.
  apply elem_of_cons in Hx as [->|Hx]; [by rewrite String.eqb_refl|].
  destruct (String.eqb_spec (p_name y) (p_name p)) as [E|_]; [|by apply IH].
  destruct Hy. rewrite E. by apply list_elem_of_fmap_2.
Qed.

Lemma expenses_by_name_id d p :
  store_ok d -> p ∈ projects d ->
  expenses_by_name d (p_name p)
  = filter (fun e => e_project_id e = p_id p) (expenses d).
Proof.
  intros (Hnd & _) Hp. unfold expenses_by_name, select_id_by_name.
  by rewrite (find_by_name _ p Hnd Hp).
Qed.

Lemma length_bind {A B} (f : A -> list B) l :
  length (l ≫= f) = sum_list ((fun x => length (f x)) <$> l).
Proof.
  induction l as [|x l IH]; [done|].
  rewrite bind_cons, length_app, IH. done.
Qed.

Lemma sum_list_fmap_cons {A} (f : A -> nat) x l :
  sum_list (f <$> x :: l) = (f x + sum_list (f <$> l))%nat.
Proof. done. Qed.

Lemma sum_list_fmap_add {A} (g h : A -> nat) l :
  sum_list ((fun i => (g i + h i)%nat) <$> l)
  = (sum_list (g <$> l) + sum_list (h <$> l))%nat.
Proof.
  induction l as [|x l IH]; [done|].
  rewrite !sum_list_fmap_cons, IH. lia.
Qed.

Lemma sum_indicator (ids : list Z) x :
  NoDup ids -> x ∈ ids ->
  sum_list ((fun i => if decide (x = i) then 1%nat else 0%nat) <$> ids)
  = 1%nat.
Proof.
  induction ids as [|i ids IH]; intros Hnd Hx; [by apply elem_of_nil in Hx|].
  apply NoDup_cons in Hnd as [Hi Hnd]. rewrite sum_list_fmap_cons.
  destruct (decide (x = i)) as [->|Hne].
  - assert (sum_list ((fun j => if decide (i = j) then 1%nat else 0%nat)
                        <$> ids) = 0%nat) as ->; [|done].
    clear IH Hnd Hx. induction ids as [|j ids IH]; [done|].
    rewrite sum_list_fmap_cons.
    apply not_elem_of_cons in Hi as [Hij Hi].
    destruct (decide (i = j)); [done|]. by rewrite IH.
  - apply elem_of_cons in Hx as [?|Hx]; [done|]. by rewrite IH.
Qed.

(** Every expense falls under exactly one of the distinct ids. *)
Lemma count_by_project (ids : list Z) (es : list expense) :
  NoDup ids -> (forall e, e ∈ es -> e_project_id e ∈ ids) ->
  sum_list ((fun i => length (filter (fun e => e_project_id e = i) es))
              <$> ids)
  = length es.
Proof.
  intros Hnd. induction es as [|e es IH]; intros Hin.
  - clear. induction ids as [|i ids IHi]; [reflexivity|].
    by rewrite sum_list_fmap_cons, IHi.
  - assert (forall i,
              length (filter (fun e0 => e_project_id e0 = i) (e :: es))
              = ((if decide (e_project_id e = i) then 1 else 0)
                 + length (filter (fun e0 => e_project_id e0 = i) es))%nat)
      as Hstep.
    { intros i. rewrite filter_cons.
      by destruct (decide (e_project_id e = i)). }
    rewrite (list_fmap_ext _ _ ids (fun _ i _ => Hstep i)).
    rewrite sum_list_fmap_add, sum_indicator, IH; [done| | |].
    + intros e0 He0. apply Hin. by right.
    + done.
    + apply Hin. by left.
Qed.

Lemma count_by_owner (ps : list project) (es : list expense) :
  NoDup (p_id <$> ps) ->
  (forall e, e ∈ es -> e_project_id e ∈ p_id <$> ps) ->
  sum_list ((fun p => length (filter (fun e => e_project_id e = p_id p) es))
              <$> ps)
  = length es.
Proof.
  intros Hnd Hin. rewrite <- (count_by_project (p_id <$> ps) es) by done.
  by rewrite <- list_fmap_compose.
Qed.

Lemma export_rows_length d :
  reachable d ->
  length (export_rows d)
  = (length (projects d) + length (expenses d))%nat.
Proof.
  intros Hr. pose proof (reachable_ok d Hr) as Hok.
  destruct (reachable_ids d Hr) as [Hc _]. apply counted_NoDup in Hc.
  unfold export_rows. rewrite length_bind.
  assert (forall p, p ∈ projects d ->
            length (project_out p
                    :: (expense_out p <$> expenses_by_name d (p_name p)))
            = (1 + length (filter (fun e => e_project_id e = p_id p)
                             (expenses d)))%nat) as Hrow.
  { intros p Hp. simpl. by rewrite length_fmap, expenses_by_name_id. }
  rewrite (proj1 (Forall_fmap_ext _ _ _)
             (proj2 (Forall_forall _ _) Hrow)).
  rewrite sum_list_fmap_add, count_by_owner; [|done|].
  - f_equal. clear. induction (projects d) as [|p l IH]; [done|].
    by rewrite sum_list_fmap_cons, IH.
  - destruct Hok as (_ & _ & _ & Hno). intros e He.
    destruct (Hno e He) as (p & Hp & <-). by apply list_elem_of_fmap_2.
Qed.

Lemma row_keys (a b c x y z : string) :
  dom (list_to_map
         [("Project", a); ("Budget", b); ("CreatedAt", c);
          ("ExpenseAmount", x); ("ExpenseDescription", y);
          ("ExpenseDate", z)] : row)
  = ({[ "Project"; "Budget"; "CreatedAt"; "ExpenseAmount";
        "ExpenseDescription"; "ExpenseDate" ]} : gset string).
Proof. rewrite dom_list_to_map_L. simpl. set_solver. Qed.

End ExportShape.

(** X19: every row of [export_rows] has exactly the six columns of the
    CSV header. In a reachable store the export has one row per project
    and one row per expense: each stored expense is written once, under
    the name of its project. *)
Theorem X19_export_rows_complete (d : db) :
  (forall r, r ∈ export_rows d ->
     dom r = ({[ "Project"; "Budget"; "CreatedAt"; "ExpenseAmount";
                 "ExpenseDescription"; "ExpenseDate" ]} : gset string))
  /\ (reachable d ->
      length (export_rows d)
      = (length (projects d) + length (expenses d))%nat
      /\ forall e, e ∈ expenses d ->
           exists p, p ∈ projects d /\ p_id p = e_project_id e
                     /\ expense_out p e ∈ export_rows d).
Proof.
  split.
  - intros r (p & Hr & _)%list_elem_of_bind.
    apply elem_of_cons in Hr as [->|(e & -> & _)%list_elem_of_fmap];
      apply row_keys.
  - intros Hr. split; [by apply export_rows_length|].
    pose proof (reachable_ok d Hr) as Hok. intros e He.
    destruct Hok as (Hnd & Hps & Hes & Hno).
    destruct (Hno e He) as (p & Hp & Hid). exists p.
    split; [done|]. split; [done|].
    apply list_elem_of_bind. exists p. split; [|done]. right.
    apply list_elem_of_fmap_2.
    rewrite expenses_by_name_id by done.
    by apply list_elem_of_filter.
Qed.

Lemma X19_witness :
  length (export_rows roof_store)
  = (length (projects roof_store) + length (expenses roof_store))%nat.
Proof.
  apply (X19_export_rows_complete roof_store).
  apply reach_import, reach_init.
Defined.

(** ** Numbers written as text and read back *)

Section NumberText.

Lemma rstrip_digits s : all_digits s = true -> rstrip s = s.
Proof.
  induction s as [|c s IH]; [done|]. intros H. simpl in H.
  apply andb_true_iff in H as [Hc Hs]. cbn [rstrip]. rewrite (IH Hs).
  destruct s; [|done]. by destruct (digit_facts c Hc) as [-> _].
Qed.

Lemma append_empty_r s : s +:+ "" = s.
Proof. induction s as [|c s IH]; [done|]. by rewrite append_cons, IH. Qed.

Lemma int_of_digits a t :
  is_digit a = true -> all_digits t = true ->
  int_of_string (String a t)
  = Some (digits_value (list_ascii_of_string (String a t)))
  /\ int_of_string (String "-" (String a t))
     = Some (- digits_value (list_ascii_of_string (String a t))).
Proof.
  intros Ha Ht. destruct (digit_facts a Ha) as (Hsp & Hm & Hp & _).
  assert (rstrip (String a t) = String a t) as Hr.
  { apply rstrip_digits. simpl. by rewrite Ha, Ht. }
  assert (digitpart (String a t)
          = Some (list_ascii_of_string (String a t), "")) as Hd.
  { cbn [digitpart list_ascii_of_string]. rewrite Ha.
    pose proof (digitpart_tail_digits t "" Ht I) as H.
    rewrite append_empty_r in H. by rewrite H. }
  split; unfold int_of_string, strip.
  - rewrite (lstrip_nonspace _ _ Hsp), Hr. cbn [opt_sign].
    rewrite Hm, Hp. by rewrite Hd.
  - rewrite (lstrip_nonspace "-" _ eq_refl).
    rewrite (rstrip_app "-" (String a t) ltac:(done) Hr
             : rstrip (String "-" (String a t)) = String "-" (String a t)).
    cbn [opt_sign Ascii.eqb Bool.eqb]. by rewrite Hd.
Qed.

End NumberText.

(** X20: an amount that the store can hold, written with two decimals
    as [export_rows] does and read by [parse_float] as [import_rows]
    does, is accepted, and the result is again an amount the store can
    hold. Zero and infinity come back unchanged; any other amount comes
    back as the binary64 number nearest to its value in hundredths,
    ties to even. *)
Theorem X20_amount_text_round_trip (x : float) :
  is_nan x = false -> fltb x fzero = false ->
  (exists v, parse_float (format_2f x) = inr v
             /\ is_nan v = false /\ fltb v fzero = false)
  /\ match x with
     | S754_finite _ m e =>
         parse_float (format_2f x)
         = inr (float_of_decimal false (hundredths m e) (- 2))
     | _ => parse_float (format_2f x) = inr x
     end.
Proof.
  intros Hn Hl. assert (valid_amount x) as Hx by done.
  destruct (parse_float_format x Hx) as [Hp [Hvn Hvl]].
  assert (parse_float (format_2f x) = inr (round2 x)) as Hq.
  { revert Hp. unfold parse_float. rewrite float_of_string_strip.
    by destruct (float_of_string (format_2f x)). }
  split; [by exists (round2 x)|].
  pose proof (round2_cases x Hx) as Hc.
  destruct x; by rewrite Hq, Hc.
Qed.

Lemma X20_witness :
  parse_float (format_2f (S754_finite false 5 (- 2)))
  = inr (float_of_decimal false (hundredths 5 (- 2)) (- 2)).
Proof.
  apply (X20_amount_text_round_trip (S754_finite false 5 (- 2)));
    by vm_compute.
Defined.

(** X21: the text of an integer, as the pages write a project id into
    a link or a hidden form field, is read back by [int] as the same
    integer, whatever its sign. *)
Theorem X21_id_text_round_trip (z : Z) :
  int_of_string (py_str_int z) = Some z.
Proof.
  unfold py_str_int. destruct (Z.ltb_spec z 0) as [Hz|Hz].
  - destruct (dec_string_shape (- z)) as (a & t & E & Ha & Ht).
    rewrite E. destruct (int_of_digits a t Ha Ht) as [_ ->].
    rewrite <- E, digits_value_dec_string by lia. f_equal. lia.
  - destruct (dec_string_shape z) as (a & t & E & Ha & Ht).
    rewrite E. destruct (int_of_digits a t Ha Ht) as [-> _].
    by rewrite <- E, digits_value_dec_string.
Qed.

(** ** Importing the export of any store *)

Section RestoreTrip.

Lemma restore_date_stored today s :
  clean s ->
  strip (or_default (Some s) (isoformat today)) = restore_date today s.
Proof.
  intros Hs. unfold restore_date. cbn [or_default].
  destruct (truthy s); [exact Hs|apply isoformat_strip].
Qed.

Lemma project_out_restored today p :
  project_ok p ->
  row_name (project_out p) = p_name p
  /\ row_budget_text (project_out p) = strip (format_2f (p_planned_budget p))
  /\ row_created_at today (project_out p)
     = restore_date today (p_created_at p)
  /\ row_expense_amount (project_out p) = "".
Proof.
  intros (Hn & Hcn & _ & Hcc). apply truthy_true in Hn.
  unfold row_name, row_budget_text, row_created_at, row_expense_amount.
  change (project_out p !! "Project") with (Some (p_name p)).
  change (project_out p !! "Budget")
    with (Some (format_2f (p_planned_budget p))).
  change (project_out p !! "CreatedAt") with (Some (p_created_at p)).
  change (project_out p !! "ExpenseAmount") with (Some "").
  rewrite (restore_date_stored today _ Hcc).
  cbn [or_default]. rewrite Hn. repeat split; try done.
  by destruct (format_2f (p_planned_budget p)).
Qed.

Lemma expense_out_restored today p e :
  project_ok p -> expense_ok e ->
  row_name (expense_out p e) = p_name p
  /\ row_budget_text (expense_out p e) = ""
  /\ row_expense_amount (expense_out p e) = strip (format_2f (e_amount e))
  /\ or_default (Some (row_expense_description (expense_out p e)))
       "Imported expense" = e_description e
  /\ row_expense_date today (expense_out p e)
     = restore_date today (e_expense_date e).
Proof.
  intros (Hn & Hcn & _) (_ & Hd & Hcd & Hct).
  apply truthy_true in Hn, Hd.
  unfold row_name, row_budget_text, row_expense_amount,
    row_expense_description, row_expense_date.
  change (expense_out p e !! "Project") with (Some (p_name p)).
  change (expense_out p e !! "Budget") with (Some "").
  change (expense_out p e !! "ExpenseAmount")
    with (Some (format_2f (e_amount e))).
  change (expense_out p e !! "ExpenseDescription")
    with (Some (e_description e)).
  change (expense_out p e !! "ExpenseDate") with (Some (e_expense_date e)).
  rewrite (restore_date_stored today _ Hct).
  cbn [or_default]. rewrite Hn, Hd, Hcd, Hd. repeat split; try done.
  by destruct (format_2f (e_amount e)).
Qed.

Lemma import_row_project_new today c pa ea p :
  project_ok p ->
  select_id_by_name c (p_name p) = None ->
  import_row today (c, pa, ea) (project_out p) =
  inr (with_project c (p_name p) (round2 (p_planned_budget p))
         (restore_date today (p_created_at p)), S pa, ea).
Proof.
  intros Hp Hs.
  destruct (project_out_restored today p Hp) as (E1 & E2 & E3 & E4).
  destruct Hp as (Hn & _ & Hb & _).
  destruct (parse_float_format _ Hb) as [Hparse [Hnan _]].
  unfold import_row, import_budget, import_expense.
  rewrite E1, E2, E3, E4. apply truthy_true in Hn. rewrite Hn. cbn [negb].
  rewrite (parse_float_truthy _ _ Hparse), Hparse, Hs.
  by rewrite (insert_project_fresh _ _ _ _ Hnan Hs).
Qed.

Lemma import_row_project_known today c pa ea p id :
  project_ok p ->
  select_id_by_name c (p_name p) = Some id ->
  import_row today (c, pa, ea) (project_out p) = inr (c, pa, ea).
Proof.
  intros Hp Hs.
  destruct (project_out_restored today p Hp) as (E1 & E2 & E3 & E4).
  destruct Hp as (Hn & _ & Hb & _).
  destruct (parse_float_format _ Hb) as [Hparse _].
  unfold import_row, import_budget, import_expense.
  rewrite E1, E2, E4. apply truthy_true in Hn. rewrite Hn. cbn [negb].
  by rewrite (parse_float_truthy _ _ Hparse), Hparse, Hs.
Qed.

Lemma import_row_expense_restored today c pa ea p e pid :
  project_ok p -> expense_ok e ->
  select_id_by_name c (p_name p) = Some pid ->
  import_row today (c, pa, ea) (expense_out p e) =
  inr (with_expense c pid (round2 (e_amount e)) (e_description e)
         (restore_date today (e_expense_date e)), pa, S ea).
Proof.
  intros Hp He Hs.
  destruct (expense_out_restored today p e Hp He)
    as (E1 & E2 & E3 & E4 & E5).
  destruct Hp as (Hn & _). destruct He as (Ha & _).
  destruct (parse_float_format _ Ha) as [Hparse [Hnan _]].
  unfold import_row, import_budget, import_expense.
  rewrite E1, E2, E3, E4, E5. apply truthy_true in Hn. rewrite Hn.
  cbn [negb truthy].
  rewrite (parse_float_truthy _ _ Hparse), Hparse, Hs.
  by rewrite (insert_expense_ok _ _ _ _ _ Hnan).
Qed.

Lemma import_loop_expenses_restored today p pid es rest :
  project_ok p -> Forall expense_ok es ->
  forall c pa ea,
    select_id_by_name c (p_name p) = Some pid ->
    import_loop today ((expense_out p <$> es) ++ rest) (c, pa, ea) =
    import_loop today rest
      (add_expenses_restored today c pid es, pa, (ea + length es)%nat).
Proof.
  intros Hp. induction 1 as [|e es He _ IH]; intros c pa ea Hs.
  - simpl. by rewrite Nat.add_0_r.
  - cbn [fmap list_fmap app import_loop].
    rewrite (import_row_expense_restored today c pa ea p e pid Hp He Hs).
    rewrite IH by done. cbn [add_expenses_restored fold_left length].
    by rewrite Nat.add_succ_r.
Qed.

Lemma add_expenses_restored_shape today c pid es :
  exists new,
    add_expenses_restored today c pid es
    = {| projects := projects c; expenses := expenses c ++ new |}
    /\ expense_view <$> new = restore_view today <$> (expense_view <$> es)
    /\ Forall (fun e => e_project_id e = pid) new.
Proof.
  revert c. induction es as [|e es IH]; intros c.
  - exists []. simpl. rewrite app_nil_r. by destruct c.
  - change (add_expenses_restored today c pid (e :: es))
      with (add_expenses_restored today
              (with_expense c pid (round2 (e_amount e)) (e_description e)
                 (restore_date today (e_expense_date e))) pid es).
    destruct (IH (with_expense c pid (round2 (e_amount e)) (e_description e)
                    (restore_date today (e_expense_date e))))
      as (new & -> & Hv & Hall).
    exists ({| e_id := next_rowid (e_id <$> expenses c);
               e_project_id := pid;
               e_amount := round2 (e_amount e);
               e_description := e_description e;
               e_expense_date := restore_date today (e_expense_date e) |}
            :: new).
    split; [|split].
    + unfold with_expense. cbn [projects expenses].
      by rewrite <- app_assoc.
    + by rewrite !fmap_cons, Hv.
    + by constructor.
Qed.

Lemma import_loop_block_restored today b rest c pa ea :
  project_ok b.1 -> Forall expense_ok b.2 ->
  select_id_by_name c (p_name b.1) = None ->
  import_loop today (block_rows b ++ rest) (c, pa, ea) =
  import_loop today rest
    (add_block_restored today c b, S pa, (ea + length b.2)%nat).
Proof.
  intros Hp Hes Hs. unfold block_rows.
  cbn [app import_loop].
  rewrite (import_row_project_new today c pa ea b.1 Hp Hs).
  apply (import_loop_expenses_restored today b.1 _ b.2 rest Hp Hes).
  by apply select_with_project_same.
Qed.

Lemma content_add_block_restored today c b :
  no_orphans c ->
  select_id_by_name c (p_name b.1) = None ->
  content (add_block_restored today c b)
  = (content c ++ [restore_entry today (block_entry b)])%list
  /\ no_orphans (add_block_restored today c b)
  /\ (forall n, n <> p_name b.1 -> select_id_by_name c n = None ->
       select_id_by_name (add_block_restored today c b) n = None).
Proof.
  intros Hno Hs. unfold add_block_restored.
  destruct (add_expenses_restored_shape today
              (with_project c (p_name b.1) (round2 (p_planned_budget b.1))
                 (restore_date today (p_created_at b.1)))
              (next_rowid (p_id <$> projects c)) b.2)
    as (new & -> & Hv & Hall).
  set (P := {| p_id := next_rowid (p_id <$> projects c);
               p_name := p_name b.1;
               p_planned_budget := round2 (p_planned_budget b.1);
               p_created_at := restore_date today (p_created_at b.1) |}).
  split; [|split].
  - rewrite (extended_content c _ P new); try done.
    unfold restore_entry, block_entry. cbn [fst snd]. by rewrite <- Hv.
  - by apply (extended_no_orphans c _ P new).
  - intros n. by apply (extended_select_other c _ P).
Qed.

Lemma import_entries_restored today bs :
  forall c pa ea,
    no_orphans c ->
    NoDup ((fun b => p_name b.1) <$> bs) ->
    Forall (fun b => select_id_by_name c (p_name b.1) = None) bs ->
    Forall (fun b => project_ok b.1 /\ Forall expense_ok b.2) bs ->
    exists c',
      import_loop today (bs ≫= block_rows) (c, pa, ea)
      = inr (c', (pa + length bs)%nat,
             (ea + sum_list ((fun b => length b.2) <$> bs))%nat)
      /\ content c'
         = (content c
            ++ (restore_entry today <$> (block_entry <$> bs)))%list.
Proof.
  induction bs as [|b bs IH]; intros c pa ea Hno Hnd Hnew Hok.
  - exists c. simpl. by rewrite !Nat.add_0_r, app_nil_r.
  - rewrite bind_cons. rewrite fmap_cons in Hnd.
    apply NoDup_cons in Hnd as [Hb Hnd].
    apply Forall_cons in Hnew as [Hsb Hnew].
    apply Forall_cons in Hok as [[Hbp Hbe] Hok].
    rewrite (import_loop_block_restored today b _ c pa ea Hbp Hbe Hsb).
    destruct (content_add_block_restored today c b Hno Hsb)
      as (Hcontent & Hno1 & Hkeep).
    destruct (IH (add_block_restored today c b) (S pa)
                (ea + length b.2)%nat Hno1 Hnd)
      as (c' & Hloop & Hc'); [|done|].
    { rewrite Forall_forall in Hnew. apply Forall_forall. intros b' Hb'.
      apply Hkeep; [|by apply Hnew]. intros Heq. apply Hb. rewrite <- Heq.
      by apply (list_elem_of_fmap_2 (fun b => p_name b.1)). }
    exists c'. split.
    + rewrite Hloop. simpl. unfold id.
      f_equal. f_equal; [f_equal; lia|]. symmetry. apply Nat.add_assoc.
    + rewrite Hc', Hcontent, <- app_assoc. done.
Qed.

Lemma entries_stored d :
  store_ok d ->
  Forall (fun b => project_ok b.1 /\ Forall expense_ok b.2) (entries d).
Proof.
  intros (_ & Hps & Hes & _).
  rewrite Forall_forall in Hps. rewrite Forall_forall in Hes.
  apply Forall_fmap, Forall_forall. intros p Hp.
  split; [by apply Hps|]. simpl. unfold expenses_by_name.
  destruct (select_id_by_name d (p_name p)); [|constructor].
  apply Forall_forall. intros e [_ He]%list_elem_of_filter. auto.
Qed.

Lemma entries_count d :
  reachable d ->
  sum_list ((fun b => length b.2) <$> entries d) = length (expenses d).
Proof.
  intros Hr. pose proof (reachable_ok d Hr) as Hok.
  destruct (reachable_ids d Hr) as [Hc _]. apply counted_NoDup in Hc.
  unfold entries. rewrite <- list_fmap_compose.
  rewrite <- (count_by_owner (projects d) (expenses d) Hc).
  - f_equal. apply Forall_fmap_ext, Forall_forall. intros p Hp. simpl.
    by rewrite expenses_by_name_id.
  - destruct Hok as (_ & _ & _ & Hno). intros e He.
    destruct (Hno e He) as (p & Hp & <-). by apply list_elem_of_fmap_2.
Qed.

End RestoreTrip.

(** X22: the export of any reachable store can be imported into an empty
    store: nothing is raised, the counts are the numbers of projects and
    of expenses of the exported store, and the new store has the same
    projects in the same order, each with its name and its expenses in
    id order, descriptions unchanged. Every monetary value is rounded to
    two decimals, and a created_at or expense_date that was the empty
    text is replaced by the date of the import. *)
Theorem X22_export_import_any_store (d : db) (today : date) :
  reachable d ->
  exists d',
    import_rows today (export_rows d) empty_db
    = (d', inr (length (projects d), length (expenses d)))
    /\ content d' = restore_entry today <$> content d.
Proof.
  intros Hr. pose proof (reachable_ok d Hr) as Hok.
  destruct (import_entries_restored today (entries d) empty_db 0 0)
    as (d' & Hloop & Hcontent).
  - apply no_orphans_empty.
  - unfold entries. rewrite <- list_fmap_compose. apply Hok.
  - by apply Forall_forall.
  - by apply entries_stored.
  - exists d'. unfold import_rows, with_conn.
    rewrite export_rows_blocks, Hloop. split.
    + rewrite (entries_count d Hr). unfold entries at 1.
      rewrite length_fmap. reflexivity.
    + rewrite Hcontent, (content_entries d). reflexivity.
Qed.

Lemma X22_witness :
  let d := (handle_add_project a_day blank_date_form empty_db).1 in
  exists d',
    import_rows a_day (export_rows d) empty_db
    = (d', inr (length (projects d), length (expenses d)))
    /\ content d' = restore_entry a_day <$> content d.
Proof.
  intros d.
  apply (X22_export_import_any_store d a_day).
  apply reach_add_project, reach_init.
Defined.

(** ** Importing the export of a store into that store *)

Section Reimport.

Lemma select_same_projects c c' n :
  projects c' = projects c ->
  select_id_by_name c' n = select_id_by_name c n.
Proof. unfold select_id_by_name. by intros ->. Qed.

Lemma select_id_by_name_own d p :
  store_ok d -> p ∈ projects d ->
  select_id_by_name d (p_name p) = Some (p_id p).
Proof.
  intros (Hnd & _) Hp. unfold select_id_by_name.
  by rewrite (find_by_name _ p Hnd Hp).
Qed.

Lemma import_loop_block_known today b rest c pa ea pid :
  project_ok b.1 -> Forall expense_ok b.2 ->
  select_id_by_name c (p_name b.1) = Some pid ->
  import_loop today (block_rows b ++ rest) (c, pa, ea) =
  import_loop today rest
    (add_expenses_restored today c pid b.2, pa, (ea + length b.2)%nat).
Proof.
  intros Hp Hes Hs. unfold block_rows. cbn [app import_loop].
  rewrite (import_row_project_known today c pa ea b.1 pid Hp Hs).
  by apply (import_loop_expenses_restored today b.1 pid b.2 rest Hp Hes).
Qed.

(** Importing the blocks of projects that the store already has adds
    the expenses of each block under its project and no project. *)
Lemma reimport_blocks today bs :
  forall c pa ea,
    NoDup ((fun b => p_id b.1) <$> bs) ->
    Forall (fun b => project_ok b.1 /\ Forall expense_ok b.2
                     /\ select_id_by_name c (p_name b.1) = Some (p_id b.1))
      bs ->
    exists new,
      import_loop today (bs ≫= block_rows) (c, pa, ea)
      = inr ({| projects := projects c; expenses := expenses c ++ new |},
             pa, (ea + sum_list ((fun b => length b.2) <$> bs))%nat)
      /\ Forall (fun e => exists b, b ∈ bs /\ e_project_id e = p_id b.1) new
      /\ forall b, b ∈ bs ->
           expense_view <$> filter (fun e => e_project_id e = p_id b.1) new
           = restore_view today <$> (expense_view <$> b.2).
Proof.
  induction bs as [|b bs IH]; intros c pa ea Hnd Hok.
  - exists []. simpl. rewrite app_nil_r, Nat.add_0_r. destruct c.
    split; [done|]. split; [constructor|].
    intros b Hb. by apply elem_of_nil in Hb.
  - rewrite bind_cons. rewrite fmap_cons in Hnd.
    apply NoDup_cons in Hnd as [Hb Hnd].
    apply Forall_cons in Hok as [(Hbp & Hbe & Hbs) Hok].
    rewrite (import_loop_block_known today b _ c pa ea _ Hbp Hbe Hbs).
    destruct (add_expenses_restored_shape today c (p_id b.1) b.2)
      as (new1 & -> & Hv1 & Hall1).
    destruct (IH {| projects := projects c; expenses := expenses c ++ new1 |}
                pa (ea + length b.2)%nat Hnd)
      as (new2 & Hloop & Hall2 & Hv2).
    { eapply Forall_impl; [exact Hok|]. intros b' (? & ? & Hs).
      split; [done|]. split; [done|]. rewrite <- Hs.
      by apply select_same_projects. }
    assert (forall b', b' ∈ bs -> p_id b'.1 <> p_id b.1) as Hfresh.
    { intros b' Hb' Heq. apply Hb. rewrite <- Heq.
      by apply (list_elem_of_fmap_2 (fun b => p_id b.1)). }
    exists (new1 ++ new2)%list. split; [|split].
    + rewrite Hloop. cbn [projects expenses]. rewrite <- app_assoc.
      rewrite sum_list_fmap_cons. f_equal. f_equal.
      symmetry. apply Nat.add_assoc.
    + apply Forall_app. split.
      * eapply Forall_impl; [exact Hall1|]. intros e He. exists b.
        split; [by left|done].
      * eapply Forall_impl; [exact Hall2|]. intros e (b' & Hb' & He).
        exists b'. split; [by right|done].
    + intros b' [->|Hb']%elem_of_cons; rewrite filter_app.
      * rewrite (filter_all _ new1 Hall1), (filter_none _ new2).
        -- by rewrite app_nil_r.
        -- eapply Forall_impl; [exact Hall2|].
           intros e (b' & Hb' & He) Heq. apply (Hfresh b' Hb'). congruence.
      * rewrite (filter_none _ new1); [by apply Hv2|].
        eapply Forall_impl; [exact Hall1|]. intros e He Heq.
        apply (Hfresh b' Hb'). congruence.
Qed.

End Reimport.

(** X23: importing the export of a reachable store into that same store
    raises nothing and adds no project: every project row finds its
    name, so budgets and created_at stay as stored. Every expense is
    added once more, so the expenses of each project are followed by
    their copies, with the amount rounded to two decimals and an empty
    expense_date replaced by the date of the import. *)
Theorem X23_reimport_own_export (d : db) (today : date) :
  reachable d ->
  exists d',
    import_rows today (export_rows d) d
    = (d', inr (0%nat, length (expenses d)))
    /\ projects d' = projects d
    /\ content d' = repeat_entry today <$> content d.
Proof.
  intros Hr. pose proof (reachable_ok d Hr) as Hok.
  destruct (reachable_ids d Hr) as [Hc _]. apply counted_NoDup in Hc.
  destruct (reimport_blocks today (entries d) d 0 0)
    as (new & Hloop & _ & Hv).
  - unfold entries. by rewrite <- list_fmap_compose.
  - pose proof (entries_stored d Hok) as Hst.
    rewrite Forall_forall in Hst. apply Forall_forall. intros b Hb.
    destruct (Hst b Hb) as [Hp He]. split; [done|]. split; [done|].
    apply list_elem_of_fmap in Hb as (p & -> & Hp').
    by apply select_id_by_name_own.
  - eexists. unfold import_rows, with_conn.
    rewrite export_rows_blocks, Hloop, (entries_count d Hr).
    split; [reflexivity|]. split; [reflexivity|].
    unfold content. rewrite <- list_fmap_compose. cbn [projects].
    apply Forall_fmap_ext, Forall_forall. intros p Hp.
    unfold repeat_entry, compose. cbn [fst snd]. f_equal.
    assert ((p, expenses_by_name d (p_name p)) ∈ entries d) as Hin.
    { apply (list_elem_of_fmap_2
               (fun p => (p, expenses_by_name d (p_name p)))), Hp. }
    specialize (Hv _ Hin). cbn [fst snd] in Hv. rewrite <- Hv.
    unfold expenses_by_name at 1.
    change (select_id_by_name _ (p_name p))
      with (select_id_by_name d (p_name p)) at 1.
    rewrite (select_id_by_name_own d p Hok Hp). cbn [expenses].
    by rewrite filter_app, fmap_app, (expenses_by_name_id d p Hok Hp).
Qed.

Lemma X23_witness :
  exists d',
    import_rows a_day (export_rows roof_store) roof_store
    = (d', inr (0%nat, length (expenses roof_store)))
    /\ projects d' = projects roof_store
    /\ content d' = repeat_entry a_day <$> content roof_store.
Proof.
  apply (X23_reimport_own_export roof_store a_day).
  apply reach_import, reach_init.
Defined.

(** ** When remaining is null *)

Section RemainingFacts.

Lemma signed_not_nan s r : signed_result s r -> is_nan r = false.
Proof. by intros [->|[->|(m & e & ->)]]. Qed.

Lemma binary_normalize_not_nan m e sz :
  is_nan (binary_normalize prec emax m e sz) = false.
Proof.
  destruct m as [|m|m]; [done|..]; cbn [binary_normalize];
    eapply signed_not_nan, binary_round_signed.
Qed.

(** The difference of two amounts is not a number only for
    infinity minus infinity. *)
Lemma fsub_nan x y :
  valid_amount x -> valid_amount y ->
  is_nan (fsub x y) = true
  <-> x = S754_infinity false /\ y = S754_infinity false.
Proof.
  intros Hx Hy.
  destruct (valid_amount_cases x Hx) as [[sx ->]|[->|(mx & ex & ->)]];
    destruct (valid_amount_cases y Hy) as [[sy ->]|[->|(my & ey & ->)]];
    try (split; [intros H; discriminate H|intros [H1 H2]; congruence]).
  - destruct sx, sy;
      (split; [intros H; discriminate H|intros [H1 H2]; congruence]).
  - done.
  - unfold fsub, SFsub. rewrite binary_normalize_not_nan.
    split; [intros H; discriminate H|intros [H1 H2]; congruence].
Qed.

End RemainingFacts.

(** X24: in a reachable store the spent of a project is never negative,
    and its remaining is null in exactly one case: the planned budget is
    infinite and the spent is infinite too. *)
Theorem X24_remaining_null (d : db) (p : project) :
  reachable d -> p ∈ projects d ->
  fltb (r_spent (aggregate_row d p)) fzero = false
  /\ (r_remaining (aggregate_row d p) = None
      <-> p_planned_budget p = S754_infinity false
          /\ r_spent (aggregate_row d p) = S754_infinity false).
Proof.
  intros Hr Hp. pose proof (reachable_ok d Hr) as Hok.
  destruct (spent_is_sum d p Hok) as [_ Hs].
  assert (valid_amount (p_planned_budget p)) as Hb.
  { destruct Hok as (_ & Hps & _). rewrite Forall_forall in Hps.
    by destruct (Hps p Hp) as (_ & _ & ? & _). }
  split; [apply Hs|].
  rewrite <- (fsub_nan _ _ Hb Hs).
  change (r_remaining (aggregate_row d p))
    with (sql_real (fsub (p_planned_budget p) (r_spent (aggregate_row d p)))).
  unfold sql_real. by destruct (is_nan _).
Qed.

Lemma X24_witness :
  let d := (import_rows a_day unbounded_rows empty_db).1 in
  let p := {| p_id := 1; p_name := "Moon";
              p_planned_budget := S754_infinity false;
              p_created_at := "2024-03-09" |} in
  fltb (r_spent (aggregate_row d p)) fzero = false
  /\ (r_remaining (aggregate_row d p) = None
      <-> p_planned_budget p = S754_infinity false
          /\ r_spent (aggregate_row d p) = S754_infinity false).
Proof.
  intros d p. apply (X24_remaining_null d p).
  - apply reach_import, reach_init.
  - apply list_elem_of_In. vm_compute. by left.
Defined.



(** X26: a batch of one row without an expense amount changes the store
    exactly as the project form with the same name, budget and date does:
    where the form raises, the import either raises too or skips, and the
    store stays as it was. The form succeeds exactly when the import
    counts one project. *)
Theorem X26_import_row_as_project_form (today : date) (r : row) (f : form)
    (d : db) :
  row_name r = form_name f ->
  row_budget_text r = form_planned_budget f ->
  row_created_at today r = form_created_at today f ->
  row_expense_amount r = "" ->
  (import_rows today [r] d).1 = (handle_add_project today f d).1
  /\ ((handle_add_project today f d).2 = inr tt
      <-> (import_rows today [r] d).2 = inr (1%nat, 0%nat)).
Proof.
  intros Hn Hb Hc Ha.
  unfold import_rows, handle_add_project, with_conn. cbn [import_loop].
  unfold import_row, import_budget, import_expense.
  rewrite Ha, Hb, Hc, Hn. cbn [truthy].
  destruct (truthy (form_name f)); cbn [negb]; [|by split].
  destruct (form_planned_budget f) as [|c s] eqn:E.
  - rewrite parse_float_empty. by split.
  - cbn [truthy]. destruct (parse_float (String c s)) as [e|b]; [by split|].
    unfold insert_project, sql_real.
    destruct (select_id_by_name d (form_name f)), (is_nan b); by split.
Qed.

Lemma X26_witness :
  (import_rows a_day [roof_budget_row] empty_db).1
  = (handle_add_project a_day roof_form empty_db).1
  /\ ((handle_add_project a_day roof_form empty_db).2 = inr tt
      <-> (import_rows a_day [roof_budget_row] empty_db).2
          = inr (1%nat, 0%nat)).
Proof.
  apply (X26_import_row_as_project_form a_day roof_budget_row roof_form
           empty_db); by vm_compute.
Defined.



